(** * The stream supervisor of rtmp-api-telegram (src/main.py)

    A shallow embedding of [StreamManager], of the stream loop it runs on a
    background thread and of the HTTP endpoints that drive it, followed by
    the properties of the supervisor.

    Modelling conventions.
    - Python code that reads and writes the manager, the disk, the clock and
      the process table is a function in the monad [M]: a world goes in, a
      result (a value or a raised exception) and a world come out.  Side
      effects done before an exception is raised stay in the world, as in
      Python.
    - [time.time()] returns a float; timestamps are rationals here and
      [int(...)] is truncation toward zero.  Integers are unbounded and print
      in full (CPython's cap on the digits of such a conversion is left
      out).
    - Paths are pathlib's pure POSIX paths, kept as the text [str(path)]
      gives; [files] lists the paths at which something exists.
    - The loop thread is a small-step machine whose steps are the stretches
      of [_stream_loop] between two blocking calls ([process.wait()] and
      [time.sleep(1)]); it can also be preempted right after the loop test
      of line 132, before it takes the next video.  A request runs whole;
      [stop_stream] is given in two halves as well, split at its blocking
      [wait(timeout=5)], so that the loop thread can run while the request
      waits.  Requests, thread steps, process exits and the passing of time
      interleave at that granularity, which gives some of the interleavings
      of the real program, not all. *)

From Stdlib Require Import ZArith QArith Ascii String.
From stdpp Require Import base option list strings gmap pretty.

Local Open Scope Z_scope.
Local Open Scope string_scope.
Local Open Scope list_scope.

(** ** Python values, exceptions, results *)

(** The values a settings dictionary holds ([Dict[str, Any]]): what
    [json.load] gives.  The code prints such a value, doubles it and prints
    the product, or hands it to [Popen]; a float and a list are therefore
    given by the texts [str()] returns for the value, for its double, for
    the double of that, and so on, and an object by its text. *)
Inductive pyval :=
| PStr (s : string)
| PInt (z : Z)
| PBool (b : bool)
| PNone                            (* JSON null *)
| PFloat (texts : nat -> string)   (* [str(x)], [str(x * 2)], [str(x * 4)], ... *)
| PList (texts : nat -> string)    (* [str(l)], [str(l * 2)], [str(l * 4)], ... *)
| PDict (text : string).           (* [str(d)] *)

(** [str(v)] / the [{v}] of an f-string. *)
Definition py_str (v : pyval) : string :=
  match v with
  | PStr s => s
  | PInt z => pretty z
  | PBool true => "True"
  | PBool false => "False"
  | PNone => "None"
  | PFloat texts => texts O
  | PList texts => texts O
  | PDict text => text
  end.

(** [type(v).__name__]. *)
Definition py_type_name (v : pyval) : string :=
  match v with
  | PStr _ => "str"
  | PInt _ => "int"
  | PBool _ => "bool"
  | PNone => "NoneType"
  | PFloat _ => "float"
  | PList _ => "list"
  | PDict _ => "dict"
  end.

(** Whether [v * 2] is defined: every value but [None] and an object can be
    multiplied by an integer. *)
Definition can_double (v : pyval) : bool :=
  match v with
  | PNone | PDict _ => false
  | _ => true
  end.

(** [v * 2] where it is defined: integer product (a boolean counts as 0 or
    1), string and list repetition, float product. *)
Definition py_double (v : pyval) : pyval :=
  match v with
  | PStr s => PStr (s +:+ s)
  | PInt z => PInt (z * 2)
  | PBool b => PInt (if b then 2 else 0)
  | PFloat texts => PFloat (fun n => texts (S n))
  | PList texts => PList (fun n => texts (S n))
  | PNone | PDict _ => v
  end.

Inductive exn :=
| KeyError (key : string)
| TypeError (msg : string)
| AttributeError (msg : string)
| OSError (msg : string)
| TimeoutExpired
| PyException (msg : string)     (* a plain [Exception(msg)] *)
| HTTPException (status_code : Z) (detail : string).

(** [str(e)], as the f-strings of the log messages print it. *)
Definition exn_str (e : exn) : string :=
  match e with
  | KeyError k => "'" +:+ k +:+ "'"
  | TypeError m => m
  | AttributeError m => m
  | OSError m => m
  | TimeoutExpired => "Command timed out after 5 seconds"
  | PyException m => m
  | HTTPException c d => pretty c +:+ ": " +:+ d
  end.

Inductive result (A : Type) :=
| Ok (a : A)
| Raise (e : exn).
Arguments Ok {A} a.
Arguments Raise {A} e.

(** ** The world: manager, environment, threads *)

Abbreviation pid := nat.

(** How an external ffmpeg process reacts; chosen by the environment when the
    process is spawned. *)
Record Behaviour := mkBehaviour {
  exit_code : Z;            (* status when left to run to completion *)
  stderr_text : string;     (* what [stderr.read()] returns *)
  terminate_fails : bool;   (* [terminate()] raises *)
  ignores_sigterm : bool;   (* still alive when the 5 s grace period ends *)
  kill_fails : bool;        (* [kill()] raises *)
}.

(** A [subprocess.Popen] object. *)
Record Popen := mkPopen {
  args : list string;
  behaviour : Behaviour;
  returncode : option Z;
}.

Inductive event :=
| Printed (msg : string)
| QueueSaved (q : list string)
| SettingsSaved
| Spawned (p : pid) (cmd : list string)
| Sigterm (p : pid)
| Sigkill (p : pid)
| Waited (p : pid) (timeout : Z)
| Slept (secs : Z)
| ThreadStarted (tid : nat).

(** The fields of [StreamManager] ([self.lock] is discussed at [with_lock]). *)
Record StreamManager := mkSM {
  process : option pid;
  is_active : bool;
  current_video_id : option string;
  start_time : option Q;
  queue : list string;
  stream_thread : option nat;
  should_stop : bool;
}.

Abbreviation Settings := (gmap string pyval).

(** What lies outside the manager. *)
Record Env := mkEnv {
  files : list string;
      (* the paths at which something exists, files and directories alike,
         spelled as [str(path)] spells them *)
  queue_file : option (option (list string));
      (* queue.json: absent / unreadable / holding a list *)
  settings_file : option (option Settings); (* settings.json, likewise *)
  disk_writable : bool;                     (* whether [open(.., 'w')] works *)
  clock : Q;                                (* what [time.time()] returns *)
  ffmpeg : list string -> option Behaviour; (* None: the spawn fails *)
  procs : list Popen;                       (* process table, by pid *)
  trace : list event;                       (* what the program did, oldest first *)
}.

(** Where a loop thread stands. *)
Inductive pc :=
| LoopHead                (* line 132: about to test [should_stop] *)
| Entered                 (* line 133: the test has let the thread in, it is
                             about to take the next video *)
| Waiting (video_id : string) (p : pid)
                          (* line 203: streaming [video_id], blocked in
                             [wait()] on the Popen object that [self.process]
                             held when the call began *)
| Sleeping                (* line 149: inside [time.sleep(1)] *)
| Exited.                 (* [_stream_loop] has returned *)

#[global] Instance pc_eq_dec : EqDecision pc.
Proof. solve_decision. Defined.

Record Thread := mkThread {
  th_settings : Settings; (* the [args=(settings,)] captured at start *)
  th_pc : pc;
}.

Record World := mkWorld {
  mgr : StreamManager;
  env : Env;
  threads : list Thread;
}.

(** Field updates. *)
Definition set_process (p : option pid) (m : StreamManager) :=
  mkSM p (is_active m) (current_video_id m) (start_time m) (queue m)
       (stream_thread m) (should_stop m).
Definition set_is_active (b : bool) (m : StreamManager) :=
  mkSM (process m) b (current_video_id m) (start_time m) (queue m)
       (stream_thread m) (should_stop m).
Definition set_current_video_id (v : option string) (m : StreamManager) :=
  mkSM (process m) (is_active m) v (start_time m) (queue m)
       (stream_thread m) (should_stop m).
Definition set_start_time (t : option Q) (m : StreamManager) :=
  mkSM (process m) (is_active m) (current_video_id m) t (queue m)
       (stream_thread m) (should_stop m).
Definition set_queue (q : list string) (m : StreamManager) :=
  mkSM (process m) (is_active m) (current_video_id m) (start_time m) q
       (stream_thread m) (should_stop m).
Definition set_stream_thread (t : option nat) (m : StreamManager) :=
  mkSM (process m) (is_active m) (current_video_id m) (start_time m) (queue m)
       t (should_stop m).
Definition set_should_stop (b : bool) (m : StreamManager) :=
  mkSM (process m) (is_active m) (current_video_id m) (start_time m) (queue m)
       (stream_thread m) b.

Definition set_queue_file (f : option (option (list string))) (e : Env) :=
  mkEnv (files e) f (settings_file e) (disk_writable e) (clock e) (ffmpeg e)
        (procs e) (trace e).
Definition set_settings_file (f : option (option Settings)) (e : Env) :=
  mkEnv (files e) (queue_file e) f (disk_writable e) (clock e) (ffmpeg e)
        (procs e) (trace e).
Definition set_clock (t : Q) (e : Env) :=
  mkEnv (files e) (queue_file e) (settings_file e) (disk_writable e) t
        (ffmpeg e) (procs e) (trace e).
Definition set_procs (ps : list Popen) (e : Env) :=
  mkEnv (files e) (queue_file e) (settings_file e) (disk_writable e) (clock e)
        (ffmpeg e) ps (trace e).
Definition set_trace (t : list event) (e : Env) :=
  mkEnv (files e) (queue_file e) (settings_file e) (disk_writable e) (clock e)
        (ffmpeg e) (procs e) t.

Definition upd_mgr (f : StreamManager -> StreamManager) (w : World) :=
  mkWorld (f (mgr w)) (env w) (threads w).
Definition upd_env (f : Env -> Env) (w : World) :=
  mkWorld (mgr w) (f (env w)) (threads w).
Definition set_threads (ts : list Thread) (w : World) :=
  mkWorld (mgr w) (env w) ts.

(** ** The monad of Python code *)

Definition M (A : Type) := World -> result A * World.

Definition ret {A} (a : A) : M A := fun w => (Ok a, w).
Definition raise {A} (e : exn) : M A := fun w => (Raise e, w).
Definition bind {A B} (c : M A) (k : A -> M B) : M B :=
  fun w => match c w with
           | (Ok a, w') => k a w'
           | (Raise e, w') => (Raise e, w')
           end.

Notation "x <- c ;; k" := (bind c (fun x => k))
  (at level 20, c at level 99, k at level 200, only parsing).
Notation "c ;; k" := (bind c (fun _ => k))
  (at level 100, k at level 200, right associativity, only parsing).

(** [try: body  except Exception as e: handler e]. *)
Definition try_except {A} (body : M A) (handler : exn -> M A) : M A :=
  fun w => match body w with
           | (Ok a, w') => (Ok a, w')
           | (Raise e, w') => handler e w'
           end.

(** [try: body  finally: final]; an exception of [body] is raised again once
    [final] has run, unless [final] raises itself. *)
Definition try_finally {A} (body : M A) (final : M unit) : M A :=
  fun w => match body w with
           | (r, w') =>
               match final w' with
               | (Ok _, w'') => (r, w'')
               | (Raise e, w'') => (Raise e, w'')
               end
           end.

(** [with self.lock: body].  The lock is a plain [threading.Lock] that no
    section holds across a blocking call, and the steps of this model run
    whole; so the lock is free whenever a step starts, and taking it neither
    blocks nor fails. *)
Definition with_lock {A} (body : M A) : M A := body.

Definition get {A} (f : StreamManager -> A) : M A := fun w => (Ok (f (mgr w)), w).
Definition put (f : StreamManager -> StreamManager) : M unit :=
  fun w => (Ok tt, upd_mgr f w).
Definition ask {A} (f : Env -> A) : M A := fun w => (Ok (f (env w)), w).
Definition modify_env (f : Env -> Env) : M unit :=
  fun w => (Ok tt, upd_env f w).
Definition emit (e : event) : M unit :=
  modify_env (fun en => set_trace (trace en ++ [e]) en).
Definition print (msg : string) : M unit := emit (Printed msg).

(** [threading.Thread(target=..., args=...).start()]: the new thread stands at
    the beginning of its target. *)
Definition spawn_thread (th : Thread) : M nat :=
  fun w =>
    (emit (ThreadStarted (length (threads w))) ;; ret (length (threads w)))
      (set_threads (threads w ++ [th]) w).

(** ** Paths *)

Definition VIDEOS_DIR : string := "videos".
Definition QUEUE_FILE : string := "queue.json".

Definition is_slash (c : ascii) : bool := Ascii.eqb c "/".

(** [s.split("/")]. *)
Fixpoint split_slash (s : string) : list string :=
  match s with
  | EmptyString => [EmptyString]
  | String c rest =>
      if is_slash c then EmptyString :: split_slash rest
      else match split_slash rest with
           | part :: parts => String c part :: parts
           | [] => [String c EmptyString]
           end
  end.

(** ["/".join(parts)]. *)
Fixpoint join_slash (parts : list string) : string :=
  match parts with
  | [] => EmptyString
  | [part] => part
  | part :: rest => part +:+ "/" +:+ join_slash rest
  end.

Definition starts_with_slash (s : string) : bool :=
  match s with
  | String c _ => is_slash c
  | EmptyString => false
  end.

Fixpoint ends_with_slash (s : string) : bool :=
  match s with
  | EmptyString => false
  | String c EmptyString => is_slash c
  | String _ rest => ends_with_slash rest
  end.

(** [posixpath.join(a, b)]: an absolute [b] replaces [a]. *)
Definition posix_join (a b : string) : string :=
  if starts_with_slash b then b
  else if ends_with_slash a || bool_decide (a = EmptyString) then a +:+ b
  else a +:+ "/" +:+ b.

(** The root pathlib finds in a path: one slash, or two when the path begins
    with exactly two. *)
Definition path_root (s : string) : string :=
  match s with
  | String c1 (String c2 (String c3 _)) =>
      if is_slash c1
      then (if is_slash c2 && negb (is_slash c3) then "//" else "/")
      else EmptyString
  | String c1 (String c2 EmptyString) =>
      if is_slash c1 then (if is_slash c2 then "//" else "/") else EmptyString
  | String c1 EmptyString => if is_slash c1 then "/" else EmptyString
  | EmptyString => EmptyString
  end.

(** The components pathlib keeps: empty ones (doubled and trailing slashes)
    and [.] are dropped, [..] stays. *)
Definition path_parts (s : string) : list string :=
  filter (fun x => x ≠ EmptyString ∧ x ≠ ".") (split_slash s).

(** [str(Path(s))]. *)
Definition path_str (s : string) : string :=
  let text := path_root s +:+ join_slash (path_parts s) in
  if bool_decide (text = EmptyString) then "." else text.

(** [str(dir / name)]: the operands are joined as [posixpath.join] does and
    the result is parsed anew, so that an absolute [name] replaces [dir] and
    the text is normalised. *)
Definition path_join (dir name : string) : string :=
  path_str (posix_join dir name).

(** [path.name]: the last component, the empty string if there is none. *)
Definition path_name (p : string) : string :=
  default EmptyString (last (path_parts p)).

Definition path_exists (p : string) : M bool :=
  ask (fun e => bool_decide (p ∈ files e)).

(** ** The queue store (lines 79-118) *)

(** [list.remove(x)]: drops the first occurrence. *)
Fixpoint py_remove (x : string) (l : list string) : list string :=
  match l with
  | [] => []
  | y :: l' => if bool_decide (x = y) then l' else y :: py_remove x l'
  end.

(** The methods of class [StreamManager]. *)
Module SM.

(** [_save_queue]: any I/O error is printed and dropped. *)
Definition _save_queue : M unit :=
  try_except
    (q <- get queue ;;
     ok <- ask disk_writable ;;
     if ok : bool
     then (modify_env (set_queue_file (Some (Some q))) ;;
           emit (QueueSaved q))
     else raise (OSError "[Errno 13] Permission denied: 'queue.json'"))
    (fun e => print ("Error saving queue: " +:+ exn_str e)).

(** [_load_queue], called by [__init__]. *)
Definition _load_queue : M unit :=
  f <- ask queue_file ;;
  match f with
  | None => ret tt
  | Some (Some q) => put (set_queue q)
  | Some None =>
      (print "Error loading queue: Expecting value: line 1 column 1 (char 0)" ;;
       put (set_queue []))
  end.

Definition add_to_queue (video_id : string) : M unit :=
  with_lock
    (q <- get queue ;;
     if bool_decide (video_id ∈ q) then ret tt
     else (put (set_queue (q ++ [video_id])) ;; _save_queue)).

Definition remove_from_queue (video_id : string) : M unit :=
  with_lock
    (q <- get queue ;;
     if bool_decide (video_id ∈ q)
     then (put (set_queue (py_remove video_id q)) ;; _save_queue)
     else ret tt).

Definition get_next_video : M (option string) :=
  with_lock
    (q <- get queue ;;
     match q with
     | video_id :: rest =>
         (put (set_queue rest) ;; _save_queue ;; ret (Some video_id))
     | [] => ret None
     end).


(** *** The process supervisor: what [subprocess.Popen] offers *)

(** [subprocess.Popen(cmd, ...)]: every argument must be a string; the
    environment decides whether the executable starts. *)
Definition as_str (v : pyval) : option string :=
  match v with
  | PStr a => Some a
  | _ => None
  end.

(** The type named by the error of an argument vector that does not consist
    of strings: that of its first other element. *)
Fixpoint non_str_type (cmd : list pyval) : string :=
  match cmd with
  | [] => "str"
  | PStr _ :: rest => non_str_type rest
  | v :: _ => py_type_name v
  end.

Definition popen (cmd : list pyval) : M pid :=
  match mapM as_str cmd with
  | None =>
      raise (TypeError ("expected str, bytes or os.PathLike object, not "
                        +:+ non_str_type cmd))
  | Some argv =>
      f <- ask ffmpeg ;;
      match f argv with
      | None => raise (OSError "[Errno 2] No such file or directory: 'ffmpeg'")
      | Some b =>
          ps <- ask procs ;;
          modify_env (set_procs (ps ++ [mkPopen argv b None])) ;;
          emit (Spawned (length ps) argv) ;;
          ret (length ps)
      end
  end.

Definition set_returncode (p : pid) (code : Z) : M unit :=
  modify_env (fun e =>
    set_procs (alter (fun pr => mkPopen (args pr) (behaviour pr) (Some code))
                     p (procs e)) e).

Definition proc (p : pid) : M (option Popen) := ask (fun e => procs e !! p).

(** [Popen.terminate()]: nothing is sent to a process that has exited. *)
Definition terminate (p : pid) : M unit :=
  pr <- proc p ;;
  match pr with
  | None => ret tt
  | Some pr =>
      match returncode pr with
      | Some _ => ret tt
      | None =>
          if terminate_fails (behaviour pr)
          then raise (OSError "[Errno 1] Operation not permitted")
          else (emit (Sigterm p) ;;
                if ignores_sigterm (behaviour pr) then ret tt
                else set_returncode p (-15))
      end
  end.

(** [Popen.wait(timeout=t)]. *)
Definition wait_timeout (p : pid) (t : Z) : M unit :=
  pr <- proc p ;;
  match pr ≫= returncode with
  | Some _ => ret tt
  | None => emit (Waited p t) ;; raise TimeoutExpired
  end.

(** [Popen.kill()]. *)
Definition kill (p : pid) : M unit :=
  pr <- proc p ;;
  match pr with
  | None => ret tt
  | Some pr =>
      match returncode pr with
      | Some _ => ret tt
      | None =>
          if kill_fails (behaviour pr)
          then raise (OSError "[Errno 1] Operation not permitted")
          else (emit (Sigkill p) ;; set_returncode p (-9))
      end
  end.

(** Reading [self.process] to call a method or read an attribute of it. *)
Definition self_process (attr : string) : M pid :=
  pr <- get process ;;
  match pr with
  | Some p => ret p
  | None =>
      raise (AttributeError
               ("'NoneType' object has no attribute '" +:+ attr +:+ "'"))
  end.

(** *** [start_stream] (lines 120-128) *)

Definition start_stream (settings : Settings) : M unit :=
  active <- get is_active ;;
  if active : bool then raise (PyException "Stream is already active")
  else
    (put (set_should_stop false) ;;
     tid <- spawn_thread (mkThread settings LoopHead) ;;
     put (set_stream_thread (Some tid))).

(** *** [_stream_video] (lines 157-215) *)

Definition dict_get (d : Settings) (k : string) : M pyval :=
  match d !! k with
  | Some v => ret v
  | None => raise (KeyError k)
  end.

(** [bitrate * 2] (line 174). *)
Definition py_mul2 (v : pyval) : M pyval :=
  if can_double v then ret (py_double v)
  else raise (TypeError ("unsupported operand type(s) for *: '"
                         +:+ py_type_name v +:+ "' and 'int'")).

(** The list of lines 166-184, [doubled] being the value of [bitrate * 2]. *)
Definition ffmpeg_cmd (video_path : string)
           (rtmp_url stream_key bitrate doubled resolution fps : pyval)
  : list pyval :=
  [ PStr "ffmpeg";
    PStr "-re";
    PStr "-i"; PStr video_path;
    PStr "-c:v"; PStr "libx264";
    PStr "-preset"; PStr "veryfast";
    PStr "-b:v"; PStr (py_str bitrate +:+ "k");
    PStr "-maxrate"; PStr (py_str bitrate +:+ "k");
    PStr "-bufsize"; PStr (py_str doubled +:+ "k");
    PStr "-pix_fmt"; PStr "yuv420p";
    PStr "-g"; PStr "50";
    PStr "-s"; resolution;
    PStr "-r"; PStr (py_str fps);
    PStr "-c:a"; PStr "aac";
    PStr "-b:a"; PStr "128k";
    PStr "-ar"; PStr "44100";
    PStr "-f"; PStr "flv";
    PStr (py_str rtmp_url +:+ "/" +:+ py_str stream_key) ].

(** Lines 209-215: the [except] and [finally] clauses around the [try]
    block of lines 195-207. *)
Definition stream_video_handlers (try_block : M unit) : M unit :=
  try_finally
    (try_except try_block
       (fun e => print ("Exception during streaming: " +:+ exn_str e)))
    (put (set_process None) ;;
     with_lock (put (set_current_video_id None))).

(** Lines 205-207: the rest of the [try] block once [wait()] has returned. *)
Definition after_wait : M unit :=
  p <- self_process "returncode" ;;
  pr <- proc p ;;
  stop <- get should_stop ;;
  if bool_decide (pr ≫= returncode ≠ Some 0) && negb stop
  then
    (p' <- self_process "stderr" ;;
     pr' <- proc p' ;;
     print ("FFmpeg error: " +:+ from_option (stderr_text ∘ behaviour) "" pr'))
  else ret tt.

(** Lines 159-200: [_stream_video] up to the blocking [wait()].  [Some p]:
    the thread now waits for process [p]; [None]: line 195 raised, so the
    rest of the [try] block was skipped, the handlers of lines 209-215
    have run and [_stream_video] has returned. *)
Definition _stream_video_begin (video_path : string) (settings : Settings)
  : M (option pid) :=
  rtmp_url <- dict_get settings "rtmp_url" ;;
  stream_key <- dict_get settings "stream_key" ;;
  bitrate <- dict_get settings "bitrate" ;;
  resolution <- dict_get settings "resolution" ;;
  fps <- dict_get settings "fps" ;;
  doubled <- py_mul2 bitrate ;;
  let cmd := ffmpeg_cmd video_path rtmp_url stream_key bitrate doubled
                        resolution fps in
  print ("Starting stream: " +:+ path_name video_path) ;;
  with_lock
    (put (set_current_video_id (Some (path_name video_path))) ;;
     put (set_is_active true) ;;
     st <- get start_time ;;
     match st with
     | None => now <- ask clock ;; put (set_start_time (Some now))
     | Some _ => ret tt
     end) ;;
  try_except
    (p <- popen cmd ;; put (set_process (Some p)) ;; ret (Some p))
    (fun e => stream_video_handlers (raise e) ;; ret None).

(** Lines 203-215: [_stream_video] from the return of [wait()] on. *)
Definition _stream_video_resume : M unit :=
  stream_video_handlers after_wait.

(** *** [_stream_loop] (lines 130-155) *)

(** Lines 151-155. *)
Definition loop_cleanup : M unit :=
  with_lock
    (put (set_is_active false) ;;
     put (set_current_video_id None) ;;
     put (set_start_time None)).

(** Lines 147-149, up to the blocking [time.sleep(1)]. *)
Definition loop_except (video_id : string) (e : exn) : M pc :=
  print ("Error streaming " +:+ video_id +:+ ": " +:+ exn_str e) ;;
  ret Sleeping.

(** Lines 133-149: one turn of the loop body, to the next blocking call or
    to the end of the function.  [if not video_id] also holds of the empty
    string. *)
Definition loop_body (settings : Settings) : M pc :=
  next <- get_next_video ;;
  match next with
  | None | Some "" =>
      print "Queue is empty. Stopping stream." ;;
      loop_cleanup ;; ret Exited
  | Some video_id =>
      let video_path := path_join VIDEOS_DIR video_id in
      found <- path_exists video_path ;;
      if negb found
      then (print ("Video " +:+ video_id +:+ " not found. Skipping.") ;;
            ret LoopHead)
      else
        try_except
          (r <- _stream_video_begin video_path settings ;;
           match r with
           | Some p => ret (Waiting video_id p)
           | None => ret LoopHead
           end)
          (loop_except video_id)
  end.

(** From the loop test to the next blocking call or to the end of the
    function. *)
Definition loop_from_head (settings : Settings) : M pc :=
  stop <- get should_stop ;;
  if stop : bool then (loop_cleanup ;; ret Exited)
  else loop_body settings.

(** The loop test of line 132 alone: the thread is let in, or leaves the
    loop through lines 151-155. *)
Definition loop_test : M pc :=
  stop <- get should_stop ;;
  if stop : bool then (loop_cleanup ;; ret Exited)
  else ret Entered.

(** From the return of [wait()] to the loop test. *)
Definition loop_from_wait (video_id : string) : M pc :=
  try_except (_stream_video_resume ;; ret LoopHead) (loop_except video_id).

(** The end of [time.sleep(1)]. *)
Definition loop_from_sleep : M pc :=
  emit (Slept 1) ;;
  modify_env (fun e => set_clock (clock e + 1)%Q e) ;;
  ret LoopHead.

Definition has_exited (p : pid) : M bool :=
  ask (fun e => bool_decide (is_Some (procs e !! p ≫= returncode))).

(** One step of a loop thread standing at [at_pc].  A thread blocked on a
    running process, and a thread that has finished, do not move. *)
Definition loop_step (settings : Settings) (at_pc : pc) : M pc :=
  match at_pc with
  | LoopHead => loop_from_head settings
  | Entered => loop_body settings
  | Waiting video_id p =>
      exited <- has_exited p ;;
      if exited : bool then loop_from_wait video_id else ret at_pc
  | Sleeping => loop_from_sleep
  | Exited => ret Exited
  end.

(** A thread at the loop test evaluates it and is preempted before line
    133; a thread anywhere else stays where it is. *)
Definition loop_enter (at_pc : pc) : M pc :=
  match at_pc with
  | LoopHead => loop_test
  | _ => ret at_pc
  end.

(** *** [stop_stream], [skip_current] (lines 217-246) *)

(** Lines 222-228 and 240-246: the [try] with its two [except] clauses.  An
    exception raised inside a handler is not caught by its sibling. *)
Definition terminate_and_wait (log_prefix : string) : M unit :=
  try_except
    (p <- self_process "terminate" ;; terminate p ;;
     p' <- self_process "wait" ;; wait_timeout p' 5)
    (fun e =>
       match e with
       | TimeoutExpired => p <- self_process "kill" ;; kill p
       | _ => print (log_prefix +:+ exn_str e)
       end).

Definition stop_stream : M unit :=
  put (set_should_stop true) ;;
  pr <- get process ;;
  (if bool_decide (is_Some pr)
   then try_finally (terminate_and_wait "Error stopping process: ")
                    (put (set_process None))
   else ret tt) ;;
  with_lock
    (put (set_is_active false) ;;
     put (set_current_video_id None) ;;
     put (set_start_time None)).

Definition skip_current : M unit :=
  pr <- get process ;;
  if bool_decide (is_Some pr)
  then terminate_and_wait "Error skipping video: "
  else ret tt.

(** *** [stop_stream] in two halves

    [wait(timeout=5)] blocks; while it does, the loop thread may run.  The
    two halves below are [stop_stream] cut at that call. *)

(** Lines 225-228: the two [except] clauses of [stop_stream]. *)
Definition stop_except (e : exn) : M unit :=
  match e with
  | TimeoutExpired => p <- self_process "kill" ;; kill p
  | _ => print ("Error stopping process: " +:+ exn_str e)
  end.

(** Lines 232-235. *)
Definition stop_reset : M unit :=
  with_lock
    (put (set_is_active false) ;;
     put (set_current_video_id None) ;;
     put (set_start_time None)).

(** Lines 219-224, up to the blocking call.  [Some p]: [terminate()] has
    returned and the request now waits, for at most 5 time units, for the
    Popen object [p] that [self.process] held.  [None]: there was no process
    or [terminate()] raised, and [stop_stream] has run to its end. *)
Definition stop_stream_begin : M (option pid) :=
  put (set_should_stop true) ;;
  pr <- get process ;;
  if bool_decide (is_Some pr)
  then
    try_except
      (p <- self_process "terminate" ;; terminate p ;;
       p' <- self_process "wait" ;; ret (Some p'))
      (fun e =>
         try_finally (stop_except e) (put (set_process None)) ;;
         stop_reset ;; ret None)
  else (stop_reset ;; ret None).

(** Lines 224-235, from the end of the blocking call on: [wait] returns or
    times out, the handlers and the [finally] clause run, the session fields
    are reset. *)
Definition stop_stream_end (p : pid) : M unit :=
  try_finally (try_except (wait_timeout p 5) stop_except)
              (put (set_process None)) ;;
  stop_reset.

End SM.

(** ** The status reporter (lines 53-59, 248-261) *)

Module StreamStatus.
Record t := mk {
  isActive : bool;
  currentVideoId : option string;
  uptime : Z;
  status : string;
  queue : list string;
  viewerCount : Z;
}.
End StreamStatus.

(** [int(x)] on a float: truncation toward zero. *)
Definition py_int (x : Q) : Z := Z.quot (Qnum x) (Zpos (Qden x)).

(** Truth value of [self.start_time]: [None] and [0.0] are false. *)
Definition truthy (t : option Q) : bool :=
  match t with
  | None => false
  | Some x => negb (Qeq_bool x 0)
  end.

Definition get_status : M StreamStatus.t :=
  with_lock
    (now <- ask clock ;;
     st <- get start_time ;;
     active <- get is_active ;;
     current <- get current_video_id ;;
     q <- get queue ;;
     let uptime := if truthy st
                   then py_int (now - default 0%Q st)%Q
                   else 0 in
     let status := if active : bool then "streaming" else "idle" in
     ret (StreamStatus.mk active current uptime status q 0)).

(** ** Settings (lines 25-31, 267-287) *)

Definition SETTINGS_FILE : string := "settings.json".

Definition DEFAULT_SETTINGS : Settings :=
  <["rtmp_url" := PStr "rtmp://example.com/live"]>
  (<["stream_key" := PStr "your_stream_key"]>
  (<["resolution" := PStr "1920x1080"]>
  (<["bitrate" := PInt 2500]>
  (<["fps" := PInt 30]> ∅)))).

Definition save_settings (settings : Settings) : M unit :=
  try_except
    (ok <- ask disk_writable ;;
     if ok : bool
     then (modify_env (set_settings_file (Some (Some settings))) ;;
           emit SettingsSaved)
     else raise (OSError "[Errno 13] Permission denied: 'settings.json'"))
    (fun e =>
       print ("Error saving settings: " +:+ exn_str e) ;;
       raise (HTTPException 500 ("Failed to save settings: " +:+ exn_str e))).

Definition load_settings : M Settings :=
  f <- ask settings_file ;;
  match f with
  | Some (Some settings) => ret settings
  | Some None =>
      print "Error loading settings: Expecting value: line 1 column 1 (char 0)" ;;
      save_settings DEFAULT_SETTINGS ;;
      ret DEFAULT_SETTINGS
  | None =>
      save_settings DEFAULT_SETTINGS ;;
      ret DEFAULT_SETTINGS
  end.

(** ** The endpoints that drive the supervisor (lines 334-337, 423-487) *)

(** The caller-misuse conditions, as the endpoints raise them. *)
Definition AlreadyActiveError : exn :=
  HTTPException 400 "Stream is already active".
Definition EmptyQueueError : exn :=
  HTTPException 400 "Queue is empty. Add videos to queue first.".
Definition NotActiveError : exn :=
  HTTPException 400 "No active stream to stop".

Module Api.

Definition get_status : M StreamStatus.t := get_status.

Definition start_stream : M string :=
  active <- get is_active ;;
  if active : bool then raise AlreadyActiveError
  else
    (q <- get queue ;;
     if bool_decide (q = []) then raise EmptyQueueError
     else
       (settings <- load_settings ;;
        try_except
          (SM.start_stream settings ;; ret "Stream started successfully")
          (fun e =>
             raise (HTTPException 500 ("Error starting stream: " +:+ exn_str e))))).

Definition stop_stream : M string :=
  active <- get is_active ;;
  if negb active then raise NotActiveError
  else
    try_except
      (SM.stop_stream ;; ret "Stream stopped successfully")
      (fun e =>
         raise (HTTPException 500 ("Error stopping stream: " +:+ exn_str e))).

(** The stop endpoint in two halves, as [SM.stop_stream_begin] and
    [SM.stop_stream_end] cut [stop_stream].  [inl msg]: the request has been
    answered; [inr p]: it waits for process [p]. *)
Definition stop_stream_begin : M (string + pid) :=
  active <- get is_active ;;
  if negb active then raise NotActiveError
  else
    try_except
      (r <- SM.stop_stream_begin ;;
       match r with
       | Some p => ret (inr p)
       | None => ret (inl "Stream stopped successfully")
       end)
      (fun e =>
         raise (HTTPException 500 ("Error stopping stream: " +:+ exn_str e))).

Definition stop_stream_end (p : pid) : M string :=
  try_except
    (SM.stop_stream_end p ;; ret "Stream stopped successfully")
    (fun e =>
       raise (HTTPException 500 ("Error stopping stream: " +:+ exn_str e))).

Definition skip_video : M string :=
  active <- get is_active ;;
  if negb active then raise (HTTPException 400 "No active stream")
  else
    try_except
      (SM.skip_current ;; ret "Skipped to next video")
      (fun e =>
         raise (HTTPException 500 ("Error skipping video: " +:+ exn_str e))).

Definition add_to_queue (video_id : string) : M (list string) :=
  found <- path_exists (path_join VIDEOS_DIR video_id) ;;
  if negb found then raise (HTTPException 404 "Video not found")
  else (SM.add_to_queue video_id ;; get queue).

Definition remove_from_queue (video_id : string) : M (list string) :=
  SM.remove_from_queue video_id ;; get queue.

Definition get_queue : M (list string) := get queue.

End Api.

(** ** The system: one manager, its loop threads, the outside world *)

(** [StreamManager()] (lines 66-77) in environment [e]. *)
Definition boot (e : Env) : World :=
  snd (SM._load_queue
         (mkWorld (mkSM None false None None [] None false) e [])).

Inductive action :=
| Start
| Stop
| Skip
| Enqueue (video_id : string)       (* POST /queue/add *)
| Dequeue (video_id : string)       (* DELETE /queue/remove/{video_id} *)
| Step (tid : nat)                  (* loop thread [tid] runs to its next blocking point *)
| ProcessExits (p : pid)            (* process [p] runs to completion *)
| Tick (dt : Q)                     (* time passes *)
| Enter (tid : nat).                (* loop thread [tid], at the loop test, evaluates
                                       it and is preempted before line 133 *)

Definition state_after {A} (c : M A) (w : World) : World := snd (c w).

Definition thread_step (tid : nat) (w : World) : World :=
  match threads w !! tid with
  | None => w
  | Some th =>
      match SM.loop_step (th_settings th) (th_pc th) w with
      | (Ok pc', w') =>
          set_threads (<[tid := mkThread (th_settings th) pc']> (threads w')) w'
      | (Raise _, w') =>
          (* an uncaught exception ends the thread *)
          set_threads (<[tid := mkThread (th_settings th) Exited]> (threads w')) w'
      end
  end.

(** The same for a thread that evaluates the loop test and no more. *)
Definition thread_enter (tid : nat) (w : World) : World :=
  match threads w !! tid with
  | None => w
  | Some th =>
      match SM.loop_enter (th_pc th) w with
      | (Ok pc', w') =>
          set_threads (<[tid := mkThread (th_settings th) pc']> (threads w')) w'
      | (Raise _, w') =>
          set_threads (<[tid := mkThread (th_settings th) Exited]> (threads w')) w'
      end
  end.

Definition process_exits (p : pid) (w : World) : World :=
  match procs (env w) !! p with
  | Some pr =>
      match returncode pr with
      | None => state_after (SM.set_returncode p (exit_code (behaviour pr))) w
      | Some _ => w
      end
  | None => w
  end.

Definition exec (a : action) (w : World) : World :=
  match a with
  | Start => state_after Api.start_stream w
  | Stop => state_after Api.stop_stream w
  | Skip => state_after Api.skip_video w
  | Enqueue v => state_after (Api.add_to_queue v) w
  | Dequeue v => state_after (Api.remove_from_queue v) w
  | Step tid => thread_step tid w
  | ProcessExits p => process_exits p w
  | Tick dt => state_after (modify_env (fun e => set_clock (clock e + dt)%Q e)) w
  | Enter tid => thread_enter tid w
  end.

Definition run (acts : list action) (w : World) : World :=
  foldl (fun w a => exec a w) w acts.

(** The loop threads that have started and not finished. *)
Definition live_loops (w : World) : nat :=
  length (filter (fun th => th_pc th ≠ Exited) (threads w)).

(** The ffmpeg processes that are running. *)
Definition running_procs (w : World) : nat :=
  length (filter (fun pr => returncode pr = None) (procs (env w))).

(** ** The other endpoints on the supervisor's state: settings and deletion
    (lines 37-42, 388-421) *)

Module StreamSettings.

(** The body of [POST /settings] once pydantic has validated it: two texts
    that must be given, a text and two integers that have defaults. *)
Record t := mk {
  rtmp_url : string;
  stream_key : string;
  resolution : string;
  bitrate : Z;
  fps : Z;
}.

(** [settings.dict()]. *)
Definition dict (s : t) : Settings :=
  <["rtmp_url" := PStr (rtmp_url s)]>
  (<["stream_key" := PStr (stream_key s)]>
  (<["resolution" := PStr (resolution s)]>
  (<["bitrate" := PInt (bitrate s)]>
  (<["fps" := PInt (fps s)]> ∅)))).

End StreamSettings.

(** [GET /settings]. *)
Definition get_settings : M Settings := load_settings.

(** [POST /settings]; the answer carries the dictionary that was saved. *)
Definition update_settings (settings : StreamSettings.t) : M Settings :=
  let settings_dict := StreamSettings.dict settings in
  save_settings settings_dict ;;
  ret settings_dict.

Definition set_files (fs : list string) (e : Env) :=
  mkEnv fs (queue_file e) (settings_file e) (disk_writable e) (clock e)
        (ffmpeg e) (procs e) (trace e).

(** [path.unlink()]: the file must be there, and the disk must take the
    change (the same switch that decides whether files can be written). *)
Definition unlink (p : string) : M unit :=
  fs <- ask files ;;
  ok <- ask disk_writable ;;
  if negb (bool_decide (p ∈ fs))
  then raise (OSError ("[Errno 2] No such file or directory: '" +:+ p +:+ "'"))
  else if ok : bool
  then modify_env (set_files (filter (fun f => f ≠ p) fs))
  else raise (OSError ("[Errno 13] Permission denied: '" +:+ p +:+ "'")).

(** [DELETE /video/{video_id}] (lines 388-409); the answer carries the
    identifier. *)
Definition delete_video (video_id : string) : M string :=
  let video_path := path_join VIDEOS_DIR video_id in
  found <- path_exists video_path ;;
  if negb found then raise (HTTPException 404 "Video not found")
  else
    (status <- get_status ;;
     if bool_decide (StreamStatus.currentVideoId status = Some video_id)
     then raise (HTTPException 400
                   "Cannot delete video that is currently streaming")
     else
       (SM.remove_from_queue video_id ;;
        try_except
          (unlink video_path ;; ret video_id)
          (fun e =>
             raise (HTTPException 500
                      ("Error deleting video: " +:+ exn_str e))))).

(** Everything that can happen to the system: the actions above and the
    three endpoints of this section. *)
Inductive call :=
| Act (a : action)
| DeleteVideo (video_id : string)
| GetSettings
| UpdateSettings (settings : StreamSettings.t).

Definition perform (c : call) (w : World) : World :=
  match c with
  | Act a => exec a w
  | DeleteVideo v => state_after (delete_video v) w
  | GetSettings => state_after get_settings w
  | UpdateSettings s => state_after (update_settings s) w
  end.

Definition history (cs : list call) (w : World) : World :=
  foldl (fun w c => perform c w) w cs.

(** * Notions the statements use *)

(** ** Call sequences on the queue, and the order they imply *)

(** The three operations of the queue store. *)
Inductive queue_op :=
| QAdd (video_id : string)      (* [add_to_queue] *)
| QRemove (video_id : string)   (* [remove_from_queue] *)
| QPop.                         (* [get_next_video] *)

Definition queue_call (o : queue_op) : M unit :=
  match o with
  | QAdd v => SM.add_to_queue v
  | QRemove v => SM.remove_from_queue v
  | QPop => SM.get_next_video ;; ret tt
  end.

Definition queue_calls (ops : list queue_op) (w : World) : World :=
  foldl (fun w o => state_after (queue_call o) w) w ops.

(** The order the specification asks for: an identifier enters at the back
    unless it is already waiting, a removed identifier leaves wherever it
    stands, the front is consumed first. *)
Definition fifo_step (q : list string) (o : queue_op) : list string :=
  match o with
  | QAdd v => if bool_decide (v ∈ q) then q else q ++ [v]
  | QRemove v => filter (fun x => x ≠ v) q
  | QPop => tail q
  end.

Definition fifo_order (ops : list queue_op) : list string :=
  foldl fifo_step [] ops.

(** ** Weakest preconditions

    [wp c w Q]: running [c] in world [w] ends in a result and a world that
    satisfy [Q].  Programs in [M] are total functions, so this is a
    statement about the one run there is. *)

Definition wp {A} (c : M A) (w : World) (Q : result A -> World -> Prop) : Prop :=
  Q (fst (c w)) (snd (c w)).

(** The run ended without an exception. *)
Definition returns {A} (r : result A) (w : World) : Prop := exists a, r = Ok a.

(** ** Worlds after the stretches of the loop *)

(** The world once [_save_queue] has run: the queue is on disk, or the
    failure to write it has been printed. *)
Definition saved (w : World) : World :=
  if disk_writable (env w)
  then upd_env (fun e => set_trace (trace e ++ [QueueSaved (queue (mgr w))])
                           (set_queue_file (Some (Some (queue (mgr w)))) e)) w
  else upd_env (fun e => set_trace
                  (trace e ++ [Printed ("Error saving queue: " +:+
                     exn_str (OSError "[Errno 13] Permission denied: 'queue.json'"))]) e) w.

(** The argument vector of line 166 when the resolution is a string. *)
Definition ffmpeg_argv (video_path : string) (rtmp_url stream_key bitrate : pyval)
           (resolution : string) (fps : pyval) : list string :=
  [ "ffmpeg"; "-re"; "-i"; video_path; "-c:v"; "libx264";
    "-preset"; "veryfast";
    "-b:v"; py_str bitrate +:+ "k";
    "-maxrate"; py_str bitrate +:+ "k";
    "-bufsize"; py_str (py_double bitrate) +:+ "k";
    "-pix_fmt"; "yuv420p"; "-g"; "50";
    "-s"; resolution; "-r"; py_str fps;
    "-c:a"; "aac"; "-b:a"; "128k"; "-ar"; "44100"; "-f"; "flv";
    py_str rtmp_url +:+ "/" +:+ py_str stream_key ].

(** Video [v] can be played from world [w] with [settings]: it is a proper
    name, its file is there, the settings hold the five keys with a bitrate
    that can be doubled and a textual resolution, and ffmpeg starts on the
    resulting command line, behaving as [beh]. *)
Definition playable (settings : Settings) (w : World) (v : string)
           (beh : Behaviour) : Prop :=
  v ≠ "" ∧ path_join VIDEOS_DIR v ∈ files (env w)
  ∧ exists rtmp_url stream_key bitrate resolution fps,
      settings !! "rtmp_url" = Some rtmp_url
      ∧ settings !! "stream_key" = Some stream_key
      ∧ settings !! "bitrate" = Some bitrate
      ∧ can_double bitrate = true
      ∧ settings !! "resolution" = Some (PStr resolution)
      ∧ settings !! "fps" = Some fps
      ∧ ffmpeg (env w)
          (ffmpeg_argv (path_join VIDEOS_DIR v) rtmp_url stream_key bitrate
                       resolution fps) = Some beh.

(** The world once [_stream_video] has started process [pr] for
    [video_path] and blocks in [wait()]. *)
Definition streaming (video_path : string) (pr : Popen) (w : World) : World :=
  let p := length (procs (env w)) in
  mkWorld
    (mkSM (Some p) true (Some (path_name video_path))
          (Some (default (clock (env w)) (start_time (mgr w))))
          (queue (mgr w)) (stream_thread (mgr w)) (should_stop (mgr w)))
    (set_trace (trace (env w)
                  ++ [Printed ("Starting stream: " +:+ path_name video_path);
                      Spawned p (args pr)])
       (set_procs (procs (env w) ++ [pr]) (env w)))
    (threads w).

(** The world once [wait()] on process [p] has returned and the rest of
    [_stream_video] has run. *)
Definition resumed (p : pid) (w : World) : World :=
  upd_mgr (set_current_video_id None)
    (upd_mgr (set_process None)
       (if bool_decide (procs (env w) !! p ≫= returncode ≠ Some 0)
           && negb (should_stop (mgr w))
        then upd_env (fun e => set_trace
               (trace e ++ [Printed ("FFmpeg error: " +:+
                  from_option (stderr_text ∘ behaviour) "" (procs e !! p))]) e) w
        else w)).

(** ** Conditions on the state and on the environment *)

(** A session that is marked active has a start time. *)
Definition active_has_start (m : StreamManager) : Prop :=
  is_active m = true -> is_Some (start_time m).

(** The settings provider answers: settings.json parses, or the defaults can
    be written. *)
Definition settings_available (e : Env) : Prop :=
  (exists s, settings_file e = Some (Some s)) ∨ disk_writable e = true.

(** The one situation in which [terminate(); wait(5); kill()] ends with an
    exception: the process of the session is alive, takes SIGTERM without
    exiting, and cannot be killed. *)
Definition kill_would_fail (w : World) : Prop :=
  exists p pr,
    process (mgr w) = Some p ∧ procs (env w) !! p = Some pr
    ∧ returncode pr = None
    ∧ terminate_fails (behaviour pr) = false
    ∧ ignores_sigterm (behaviour pr) = true
    ∧ kill_fails (behaviour pr) = true.

(** ** Sample worlds *)

(** An ffmpeg that streams its file to the end and exits with status 0. *)
Definition plays_well : Behaviour := mkBehaviour 0 "" false false false.

(** A process that takes SIGTERM without exiting and cannot be killed. *)
Definition unkillable : Behaviour := mkBehaviour 1 "" false true true.

(** Settings on disk, a writable disk, no queue file, the clock at
    1700000000. *)
Definition sample_env (fs : list string)
           (ff : list string -> option Behaviour) : Env :=
  mkEnv fs None (Some (Some DEFAULT_SETTINGS)) true 1700000000 ff [] [].

(** A freshly constructed manager to which the identifiers of [q] have been
    added, in an environment holding the files [fs]. *)
Definition sample_world (fs : list string)
           (ff : list string -> option Behaviour) (q : list string) : World :=
  queue_calls (QAdd <$> q) (boot (sample_env fs ff)).

(** ** Notions of the further properties *)

(** What [_load_queue] makes of a queue file. *)
Definition loaded (f : option (option (list string))) : list string :=
  match f with
  | Some (Some q) => q
  | _ => []
  end.




(** The file a process plays: the argument after [-i] on its command line. *)
Definition input_file (pr : Popen) : option string := args pr !! 3%nat.

(** * Properties *)

(** ** Paths *)

(** The paths pathlib makes of some identifiers: a plain name, the empty
    identifier and [.], [./], doubled and trailing slashes, [..], absolute
    paths; and the names of some paths. *)
Example path_join_samples :
  path_join VIDEOS_DIR "a.mp4" = "videos/a.mp4"
  ∧ path_join VIDEOS_DIR "" = "videos"
  ∧ path_join VIDEOS_DIR "." = "videos"
  ∧ path_join VIDEOS_DIR "./a" = "videos/a"
  ∧ path_join VIDEOS_DIR "sub//a/" = "videos/sub/a"
  ∧ path_join VIDEOS_DIR "a/.." = "videos/a/.."
  ∧ path_join VIDEOS_DIR "../x" = "videos/../x"
  ∧ path_join VIDEOS_DIR "/etc/passwd" = "/etc/passwd"
  ∧ path_join VIDEOS_DIR "//x" = "//x"
  ∧ path_join VIDEOS_DIR "///x" = "/x"
  ∧ path_name "videos/sub/a" = "a"
  ∧ path_name "videos" = "videos"
  ∧ path_name "videos/a/.." = ".."
  ∧ path_name "/" = ""
  ∧ path_name "." = "".
Proof. vm_compute. split_and!; reflexivity. Qed.

(** ** Basic facts about the monad and the queue store *)

Lemma save_queue_ok w :
  fst (SM._save_queue w) = Ok tt ∧ mgr (snd (SM._save_queue w)) = mgr w
  ∧ threads (snd (SM._save_queue w)) = threads w.
Proof.
  unfold SM._save_queue, try_except, bind, get, ask, emit, print, raise,
    modify_env.
  simpl. destruct (disk_writable (env w)); simpl; auto.
Qed.

Lemma save_queue_eq w :
  exists e', SM._save_queue w = (Ok tt, mkWorld (mgr w) e' (threads w)).
Proof.
  destruct (save_queue_ok w) as (H1 & H2 & H3).
  destruct (SM._save_queue w) as [r [m e t]]; simpl in *; subst.
  by exists e.
Qed.

(** ** The queue: enqueue, dequeue, pop *)

Lemma py_remove_notin v (q : list string) : v ∉ q -> py_remove v q = q.
Proof.
  induction q as [|y q IH]; simpl; [done|].
  intros Hn. apply not_elem_of_cons in Hn as [Hne Hn].
  rewrite bool_decide_eq_false_2 by done. by rewrite IH.
Qed.

Lemma py_remove_filter v (q : list string) :
  NoDup q -> py_remove v q = filter (fun x => x ≠ v) q.
Proof.
  induction q as [|y q IH]; simpl; [done|].
  intros Hnd. apply NoDup_cons in Hnd as [Hy Hnd].
  destruct (decide (v = y)) as [->|Hne].
  - rewrite bool_decide_eq_true_2 by done.
    rewrite filter_cons_False by (intros H; by apply H).
    rewrite <- (py_remove_notin y q Hy) at 1.
    by apply IH.
  - rewrite bool_decide_eq_false_2 by done.
    rewrite filter_cons_True by congruence.
    by rewrite IH.
Qed.

Lemma fifo_step_NoDup q o : NoDup q -> NoDup (fifo_step q o).
Proof.
  intros Hnd. destruct o as [v|v|]; simpl.
  - case_bool_decide; [done|].
    apply NoDup_app. split_and!; [done| |apply NoDup_singleton].
    intros x Hx Hx'. apply list_elem_of_singleton in Hx'. by subst.
  - by apply NoDup_filter.
  - destruct q; simpl; [done|]. by apply NoDup_cons in Hnd as [_ ?].
Qed.

(** What one call does to the manager's queue, and that it touches nothing
    else in the manager. *)
Lemma queue_call_spec o w :
  NoDup (queue (mgr w)) ->
  fst (queue_call o w) = Ok tt
  ∧ mgr (state_after (queue_call o) w)
    = set_queue (fifo_step (queue (mgr w)) o) (mgr w).
Proof.
  intros Hnd. destruct w as [m e t]. destruct m as [p a c s q th st].
  unfold state_after. simpl in Hnd.
  destruct o as [v|v|]; simpl;
    unfold SM.add_to_queue, SM.remove_from_queue, SM.get_next_video,
      with_lock, bind, get, put, ret, upd_mgr; simpl.
  - case_bool_decide; simpl; [done|].
    match goal with |- context [SM._save_queue ?w0] =>
      destruct (save_queue_eq w0) as [e' ->] end. done.
  - case_bool_decide as Hin; simpl.
    + match goal with |- context [SM._save_queue ?w0] =>
        destruct (save_queue_eq w0) as [e' ->] end.
      simpl. by rewrite py_remove_filter.
    + split; [done|]. unfold set_queue; simpl. f_equal.
      rewrite <- (py_remove_notin v q Hin) at 1. by apply py_remove_filter.
  - destruct q as [|x q]; simpl; [done|].
    match goal with |- context [SM._save_queue ?w0] =>
      destruct (save_queue_eq w0) as [e' ->] end. done.
Qed.

Lemma queue_calls_spec ops : forall w,
  NoDup (queue (mgr w)) ->
  queue (mgr (queue_calls ops w)) = foldl fifo_step (queue (mgr w)) ops
  ∧ NoDup (queue (mgr (queue_calls ops w))).
Proof.
  unfold queue_calls.
  induction ops as [|o ops IH]; intros w Hnd; simpl; [done|].
  destruct (queue_call_spec o w Hnd) as [_ Hm].
  assert (Hq : queue (mgr (state_after (queue_call o) w))
               = fifo_step (queue (mgr w)) o) by by rewrite Hm.
  destruct (IH (state_after (queue_call o) w)) as [H1 H2].
  { rewrite Hq. by apply fifo_step_NoDup. }
  split; [|done]. by rewrite H1, Hq.
Qed.

Lemma add_present_noop v w :
  v ∈ queue (mgr w) -> SM.add_to_queue v w = (Ok tt, w).
Proof.
  intros Hin. unfold SM.add_to_queue, with_lock, bind, get. simpl.
  by rewrite bool_decide_eq_true_2.
Qed.

Lemma get_status_queue w :
  exists st, get_status w = (Ok st, w) ∧ StreamStatus.queue st = queue (mgr w).
Proof. eexists. split; [reflexivity|done]. Qed.

(** The reference order on plain sequences of distinct enqueues is the
    sequence itself. *)
Lemma fifo_order_adds (l : list string) :
  NoDup l -> fifo_order (QAdd <$> l) = l.
Proof.
  unfold fifo_order. intros Hnd.
  enough (forall acc : list string, NoDup (acc ++ l) ->
            foldl fifo_step acc (QAdd <$> l) = acc ++ l) as H
    by by apply (H []).
  clear Hnd. induction l as [|x l IH]; intros acc Hnd; simpl.
  - by rewrite app_nil_r.
  - apply NoDup_app in Hnd as Hnd'. destruct Hnd' as (_ & Hdis & _).
    rewrite bool_decide_eq_false_2.
    + rewrite IH; rewrite <- app_assoc; done.
    + intros Hx. apply (Hdis x Hx). left.
Qed.

(** The reference order is first-in first-out: an enqueue only ever extends
    the queue at the back, a dequeue or a pop leaves the remaining
    identifiers in the order they had. *)
Lemma fifo_step_order (q : list string) (o : queue_op) :
  match o with
  | QAdd v => q `prefix_of` fifo_step q o
  | QRemove _ | QPop => fifo_step q o `sublist_of` q
  end.
Proof.
  destruct o as [v|v|]; simpl.
  - case_bool_decide; [done|]. by apply prefix_app_r.
  - apply sublist_filter.
  - destruct q as [|x q]; simpl; [done|]. by apply sublist_cons.
Qed.

(** C1: on a manager whose queue starts empty, after any sequence of
    [add_to_queue] / [remove_from_queue] / [get_next_video] calls the queue
    holds no identifier twice, [get_status] reports exactly the order the
    FIFO reference gives for that call sequence, and adding an identifier
    that is already queued changes nothing at all (nothing is written
    either). *)
Theorem queue_fifo_no_duplicates (w : World) (ops : list queue_op) :
  queue (mgr w) = [] ->
  let w' := queue_calls ops w in
  NoDup (queue (mgr w'))
  ∧ (exists st, get_status w' = (Ok st, w')
                ∧ StreamStatus.queue st = fifo_order ops)
  ∧ (forall v, v ∈ queue (mgr w') -> SM.add_to_queue v w' = (Ok tt, w')).
Proof.
  intros Hq w'.
  destruct (queue_calls_spec ops w) as [H1 H2].
  { rewrite Hq. apply NoDup_nil_2. }
  split_and!.
  - done.
  - destruct (get_status_queue w') as (st & Hst & Hsq).
    exists st. split; [done|]. rewrite Hsq. subst w'. rewrite H1, Hq. done.
  - intros v Hv. by apply add_present_noop.
Qed.

(** ** Reasoning about programs in [M] *)

Section WpRules.
Context {A B : Type}.
Implicit Types (w : World) (Q : result A -> World -> Prop).

Lemma wp_run (c : M A) w Q r w' : c w = (r, w') -> Q r w' -> wp c w Q.
Proof. unfold wp. by intros ->. Qed.

Lemma wp_inv (c : M A) w Q : wp c w Q -> exists r w', c w = (r, w') ∧ Q r w'.
Proof. unfold wp. destruct (c w) as [r w']. eauto. Qed.

Lemma wp_mono (c : M A) w Q (Q' : result A -> World -> Prop) :
  wp c w Q -> (forall r w', Q r w' -> Q' r w') -> wp c w Q'.
Proof. unfold wp. auto. Qed.

Lemma wp_ret (a : A) w Q : Q (Ok a) w -> wp (ret a) w Q.
Proof. done. Qed.

Lemma wp_raise (e : exn) w Q : Q (Raise e) w -> wp (raise e) w Q.
Proof. done. Qed.

Lemma wp_bind (c : M A) (k : A -> M B) w (Q : result B -> World -> Prop) :
  wp c w (fun r w' => match r with
                      | Ok a => wp (k a) w' Q
                      | Raise e => Q (Raise e) w'
                      end) ->
  wp (bind c k) w Q.
Proof. unfold wp, bind. by destruct (c w) as [[a|e] w']. Qed.

Lemma wp_try_except (body : M A) (handler : exn -> M A) w Q :
  wp body w (fun r w' => match r with
                         | Ok a => Q (Ok a) w'
                         | Raise e => wp (handler e) w' Q
                         end) ->
  wp (try_except body handler) w Q.
Proof. unfold wp, try_except. by destruct (body w) as [[a|e] w']. Qed.

Lemma wp_try_finally (body : M A) (final : M unit) w Q :
  wp body w (fun r w' =>
    wp final w' (fun r' w'' => match r' with
                               | Ok _ => Q r w''
                               | Raise e => Q (Raise e) w''
                               end)) ->
  wp (try_finally body final) w Q.
Proof.
  unfold wp, try_finally. destruct (body w) as [r w']. cbn [fst snd].
  by destruct (final w') as [[[]|e] w''].
Qed.

Lemma wp_get (f : StreamManager -> A) w Q : Q (Ok (f (mgr w))) w -> wp (get f) w Q.
Proof. done. Qed.

Lemma wp_ask (f : Env -> A) w Q : Q (Ok (f (env w))) w -> wp (ask f) w Q.
Proof. done. Qed.
End WpRules.

Lemma wp_put f w (Q : result unit -> World -> Prop) :
  Q (Ok tt) (upd_mgr f w) -> wp (put f) w Q.
Proof. done. Qed.

Lemma wp_modify_env f w (Q : result unit -> World -> Prop) :
  Q (Ok tt) (upd_env f w) -> wp (modify_env f) w Q.
Proof. done. Qed.

Lemma wp_emit e w (Q : result unit -> World -> Prop) :
  Q (Ok tt) (upd_env (fun en => set_trace (trace en ++ [e]) en) w) ->
  wp (emit e) w Q.
Proof. done. Qed.

Lemma wp_spawn_thread th w (Q : result nat -> World -> Prop) :
  Q (Ok (length (threads w)))
    (upd_env (fun en => set_trace (trace en ++ [ThreadStarted (length (threads w))]) en)
             (set_threads (threads w ++ [th]) w)) ->
  wp (spawn_thread th) w Q.
Proof. done. Qed.

(** One symbolic step through the head of a program. *)
Ltac wp_step :=
  lazymatch goal with
  | |- wp (bind _ _) _ _ => apply wp_bind
  | |- wp (ret _) _ _ => apply wp_ret
  | |- wp (raise _) _ _ => apply wp_raise
  | |- wp (get _) _ _ => apply wp_get
  | |- wp (put _) _ _ => apply wp_put
  | |- wp (ask _) _ _ => apply wp_ask
  | |- wp (modify_env _) _ _ => apply wp_modify_env
  | |- wp (emit _) _ _ => apply wp_emit
  | |- wp (print _) _ _ => apply wp_emit
  | |- wp (spawn_thread _) _ _ => apply wp_spawn_thread
  | |- wp (with_lock _) _ _ => unfold with_lock at 1
  | |- wp (try_except _ _) _ _ => apply wp_try_except
  | |- wp (try_finally _ _) _ _ => apply wp_try_finally
  end; cbv beta iota.

Ltac wp_branch :=
  lazymatch goal with
  | |- wp (if ?b then _ else _) _ _ => destruct b eqn:?
  | |- wp (match ?x with _ => _ end) _ _ => destruct x eqn:?
  end; cbv beta iota.

(** Case analysis on the run of the program at the head. *)
Tactic Notation "wp_cases" "as" simple_intropattern(pat) :=
  lazymatch goal with
  | |- wp ?c ?w _ =>
      let E := fresh "E" in
      destruct (c w) as pat eqn:E;
      eapply (wp_run _ _ _ _ _ E); cbv beta iota
  end.

Ltac wp_steps := repeat wp_step.
Ltac wp_auto := repeat first [wp_step | wp_branch].

(** Projections of updated worlds. *)
Ltac wsimpl :=
  unfold upd_mgr, upd_env, set_threads,
    set_process, set_is_active, set_current_video_id, set_start_time,
    set_queue, set_stream_thread, set_should_stop,
    set_queue_file, set_settings_file, set_clock, set_procs, set_trace;
  cbn [mgr env threads
       process is_active current_video_id start_time queue stream_thread
       should_stop
       files queue_file settings_file disk_writable clock ffmpeg procs trace
       fst snd th_pc th_settings].

(** The same by plain computation, in the hypotheses too. *)
Ltac wcbv :=
  cbv beta iota delta
      [mgr env threads upd_mgr upd_env set_threads
       process is_active current_video_id start_time queue stream_thread
       should_stop set_process set_is_active set_current_video_id
       set_start_time set_queue set_stream_thread set_should_stop
       files queue_file settings_file disk_writable clock ffmpeg procs trace
       set_queue_file set_settings_file set_clock set_procs set_trace
       fst snd th_pc th_settings] in *.

(** *** Programs that cannot raise *)

Lemma returns_Ok {A} (a : A) w : returns (Ok a) w.
Proof. by exists a. Qed.
#[local] Hint Resolve returns_Ok : core.

Lemma popen_cases cmd w :
  (exists p w', SM.popen cmd w = (Ok p, w'))
  ∨ (exists e, SM.popen cmd w = (Raise e, w)).
Proof.
  unfold SM.popen. destruct (mapM _ cmd) as [argv|]; [|right; by eexists].
  unfold bind, ask, ret, raise, emit, modify_env. cbv beta iota.
  destruct (ffmpeg (env w) argv); [left|right]; eauto.
Qed.

Lemma stream_video_handlers_returns try_block w :
  wp (SM.stream_video_handlers try_block) w returns.
Proof.
  unfold SM.stream_video_handlers. wp_step.
  eapply wp_mono with (Q := returns).
  - wp_step. wp_cases as [[[]|e] w']; [eauto|]. wp_auto. eauto.
  - intros r w' [[] ->]. cbv beta. wp_auto. eauto.
Qed.

Lemma save_queue_returns w : wp SM._save_queue w returns.
Proof. unfold SM._save_queue. wp_auto; eauto. Qed.

Lemma get_next_video_returns w : wp SM.get_next_video w returns.
Proof.
  unfold SM.get_next_video. wp_auto; eauto.
  eapply wp_mono; [apply save_queue_returns|].
  intros r w' [[] ->]. wp_auto. eauto.
Qed.

Lemma loop_cleanup_returns w : wp SM.loop_cleanup w returns.
Proof. unfold SM.loop_cleanup. wp_auto. eauto. Qed.

Lemma loop_except_returns v e w : wp (SM.loop_except v e) w returns.
Proof. unfold SM.loop_except. wp_auto. eauto. Qed.

Lemma loop_body_returns settings w : wp (SM.loop_body settings) w returns.
Proof.
  unfold SM.loop_body. wp_step.
  eapply wp_mono; [apply get_next_video_returns|].
  intros r w' [next ->].
  destruct next as [[|c v]|]; unfold path_exists; wp_auto;
    try (eapply wp_mono; [apply loop_cleanup_returns|];
         intros r1 w1 [[] ->]; wp_auto; eauto); eauto.
  wp_cases as [[[p|]|e] w1]; wp_auto; eauto.
  apply loop_except_returns.
Qed.

(** No exception leaves a step of the loop thread: [_stream_loop] never
    raises, whatever the queue, the disk, the settings and ffmpeg do. *)
Lemma loop_step_returns settings at_pc w :
  wp (SM.loop_step settings at_pc) w returns.
Proof.
  destruct at_pc as [| |v p| |]; cbn [SM.loop_step].
  - unfold SM.loop_from_head. wp_auto.
    + eapply wp_mono; [apply loop_cleanup_returns|].
      intros r w' [[] ->]. wp_auto. eauto.
    + apply loop_body_returns.
  - apply loop_body_returns.
  - unfold SM.has_exited. wp_auto; eauto.
    unfold SM.loop_from_wait, SM._stream_video_resume. wp_auto.
    eapply wp_mono; [apply stream_video_handlers_returns|].
    intros r w' [[] ->]. wp_auto. eauto.
  - unfold SM.loop_from_sleep. wp_auto. eauto.
  - wp_auto. eauto.
Qed.
(** *** What [_save_queue] does *)

Lemma save_queue_run w : SM._save_queue w = (Ok tt, saved w).
Proof.
  unfold SM._save_queue, saved, try_except, bind, get, ask, print, emit,
    modify_env, raise, ret.
  cbv beta iota. destruct (disk_writable (env w)); reflexivity.
Qed.

Lemma saved_frame w :
  mgr (saved w) = mgr w ∧ threads (saved w) = threads w
  ∧ files (env (saved w)) = files (env w)
  ∧ settings_file (env (saved w)) = settings_file (env w)
  ∧ disk_writable (env (saved w)) = disk_writable (env w)
  ∧ clock (env (saved w)) = clock (env w)
  ∧ ffmpeg (env (saved w)) = ffmpeg (env w)
  ∧ procs (env (saved w)) = procs (env w)
  ∧ exists ev, trace (env (saved w)) = trace (env w) ++ [ev]
               ∧ forall secs, ev ≠ Slept secs.
Proof.
  unfold saved. destruct (disk_writable (env w)) eqn:E; wsimpl;
    rewrite ?E; split_and!; try done; eexists; split; try done.
Qed.

Lemma wp_save_queue w (Q : result unit -> World -> Prop) :
  Q (Ok tt) (saved w) -> wp SM._save_queue w Q.
Proof. intros. eapply wp_run; [apply save_queue_run|done]. Qed.

(** *** Running one video *)

Lemma popen_run argv beh w :
  ffmpeg (env w) argv = Some beh ->
  SM.popen (PStr <$> argv) w
  = (Ok (length (procs (env w))),
     upd_env (fun e => set_trace (trace e ++ [Spawned (length (procs e)) argv])
                         (set_procs (procs e ++ [mkPopen argv beh None]) e)) w).
Proof.
  intros Hf. unfold SM.popen.
  assert (mapM SM.as_str
               (PStr <$> argv) = Some argv) as ->.
  { clear Hf. induction argv as [|a l IH]; [done|]. cbn. by rewrite IH. }
  unfold bind, ask, ret, emit, modify_env. cbv beta iota. rewrite Hf.
  destruct w as [m e t]. reflexivity.
Qed.

Lemma stream_video_begin_run video_path settings w
      rtmp_url stream_key bitrate resolution fps beh :
  settings !! "rtmp_url" = Some rtmp_url ->
  settings !! "stream_key" = Some stream_key ->
  settings !! "bitrate" = Some bitrate ->
  can_double bitrate = true ->
  settings !! "resolution" = Some (PStr resolution) ->
  settings !! "fps" = Some fps ->
  ffmpeg (env w)
    (ffmpeg_argv video_path rtmp_url stream_key bitrate resolution fps)
  = Some beh ->
  SM._stream_video_begin video_path settings w
  = (Ok (Some (length (procs (env w)))),
     streaming video_path
       (mkPopen (ffmpeg_argv video_path rtmp_url stream_key bitrate resolution fps)
                beh None) w).
Proof.
  intros H1 H2 H3 Hd H4 H5 Hf.
  unfold SM._stream_video_begin, SM.dict_get, SM.py_mul2.
  rewrite H1, H2, H3, H4, H5.
  unfold with_lock, try_except, bind, ret, put, get, ask, print, emit, modify_env.
  cbv beta iota. rewrite Hd. cbv beta iota.
  change (SM.ffmpeg_cmd video_path rtmp_url stream_key bitrate
            (py_double bitrate) (PStr resolution) fps)
    with (PStr <$> ffmpeg_argv video_path rtmp_url stream_key bitrate resolution fps).
  destruct w as [m e t], m as [p a c s q th st]. unfold streaming. wsimpl.
  destruct s; cbv beta iota; wsimpl;
    (erewrite popen_run by (wsimpl; exact Hf));
    destruct e; wsimpl; rewrite <- app_assoc; reflexivity.
Qed.

Lemma wp_eq {A} (c : M A) w (x : result A * World) :
  wp c w (fun r w' => (r, w') = x) <-> c w = x.
Proof. unfold wp. by destruct (c w). Qed.

Lemma saved_mgr w : mgr (saved w) = mgr w.
Proof. apply saved_frame. Qed.
Lemma saved_threads w : threads (saved w) = threads w.
Proof. apply saved_frame. Qed.
Lemma saved_files w : files (env (saved w)) = files (env w).
Proof. apply saved_frame. Qed.
Lemma saved_ffmpeg w : ffmpeg (env (saved w)) = ffmpeg (env w).
Proof. apply saved_frame. Qed.
Lemma saved_procs w : procs (env (saved w)) = procs (env w).
Proof. apply saved_frame. Qed.

Ltac wp_step' :=
  first [ wp_step
        | lazymatch goal with
          | |- wp SM._save_queue _ _ => apply wp_save_queue
          end ].

(** A thread that passes the loop test goes on with the loop body. *)
Lemma loop_from_head_body settings w :
  should_stop (mgr w) = false ->
  SM.loop_from_head settings w = SM.loop_body settings w.
Proof. intros Hs. unfold SM.loop_from_head, bind, get. by rewrite Hs. Qed.

(** The loop meets a queue entry whose file is gone: the entry is consumed,
    the fact is logged, the loop is back at its test. *)
Lemma loop_head_skips_missing settings w a rest :
  should_stop (mgr w) = false ->
  queue (mgr w) = a :: rest ->
  a ≠ "" ->
  path_join VIDEOS_DIR a ∉ files (env w) ->
  SM.loop_from_head settings w
  = (Ok LoopHead,
     upd_env (fun e => set_trace
                (trace e ++ [Printed ("Video " +:+ a +:+ " not found. Skipping.")]) e)
             (saved (upd_mgr (set_queue rest) w))).
Proof.
  intros Hstop Hq Ha Hmiss. rewrite loop_from_head_body by done. apply wp_eq.
  unfold SM.loop_body.
  wp_step'. unfold SM.get_next_video. do 3 wp_step'. rewrite Hq.
  repeat wp_step'.
  destruct a as [|c a]; [done|].
  unfold path_exists. do 2 wp_step'.
  rewrite saved_files. wsimpl.
  rewrite bool_decide_eq_false_2 by done. cbn [negb].
  repeat wp_step'. reflexivity.
Qed.

(** The loop meets a playable entry: it starts ffmpeg on it and blocks. *)
Lemma loop_head_starts settings w v rest beh :
  should_stop (mgr w) = false ->
  queue (mgr w) = v :: rest ->
  playable settings w v beh ->
  exists rtmp_url stream_key bitrate resolution fps,
    SM.loop_from_head settings w
    = (Ok (Waiting v (length (procs (env w)))),
       streaming (path_join VIDEOS_DIR v)
         (mkPopen (ffmpeg_argv (path_join VIDEOS_DIR v) rtmp_url stream_key
                               bitrate resolution fps) beh None)
         (saved (upd_mgr (set_queue rest) w))).
Proof.
  intros Hstop Hq (Hv & Hfile & u & k & b & r & f & H1 & H2 & H3 & Hd & H4 & H5 & Hf).
  exists u, k, b, r, f. rewrite loop_from_head_body by done. apply wp_eq.
  unfold SM.loop_body.
  wp_step'. unfold SM.get_next_video. do 3 wp_step'. rewrite Hq.
  repeat wp_step'.
  destruct v as [|c v]; [done|].
  unfold path_exists. do 2 wp_step'.
  rewrite saved_files. wsimpl.
  rewrite bool_decide_eq_true_2 by done. cbn [negb].
  do 2 wp_step'.
  eapply wp_run.
  { eapply stream_video_begin_run; try eassumption.
    rewrite saved_ffmpeg. wsimpl. exact Hf. }
  cbv beta iota. wp_step'. rewrite saved_procs. reflexivity.
Qed.

Lemma loop_wait_resumes settings v p w :
  process (mgr w) = Some p ->
  is_Some (procs (env w) !! p ≫= returncode) ->
  SM.loop_step settings (Waiting v p) w = (Ok LoopHead, resumed p w).
Proof.
  intros Hp Hex. apply wp_eq. cbn [SM.loop_step].
  unfold SM.has_exited. do 2 wp_step'.
  rewrite bool_decide_eq_true_2 by done.
  unfold SM.loop_from_wait, SM._stream_video_resume, SM.stream_video_handlers,
    SM.after_wait, SM.self_process, SM.proc.
  repeat first [wp_step' | rewrite Hp].
  unfold resumed.
  destruct (bool_decide _ && negb _); repeat first [wp_step' | rewrite Hp];
    reflexivity.
Qed.

Lemma resumed_frame p w :
  mgr (resumed p w) = set_current_video_id None (set_process None (mgr w))
  ∧ threads (resumed p w) = threads w
  ∧ files (env (resumed p w)) = files (env w)
  ∧ ffmpeg (env (resumed p w)) = ffmpeg (env w)
  ∧ procs (env (resumed p w)) = procs (env w)
  ∧ clock (env (resumed p w)) = clock (env w).
Proof. unfold resumed. by destruct (bool_decide _ && negb _). Qed.

Lemma thread_step_run tid w th pc' w' :
  threads w !! tid = Some th ->
  SM.loop_step (th_settings th) (th_pc th) w = (Ok pc', w') ->
  thread_step tid w
  = set_threads (<[tid := mkThread (th_settings th) pc']> (threads w')) w'.
Proof. intros Hth Hrun. unfold thread_step. by rewrite Hth, Hrun. Qed.

(** Every way out of the loop goes through lines 151-155. *)
Lemma loop_step_exit settings at_pc w :
  at_pc ≠ Exited ->
  wp (SM.loop_step settings at_pc) w (fun r w' =>
    r = Ok Exited ->
    is_active (mgr w') = false
    ∧ current_video_id (mgr w') = None
    ∧ start_time (mgr w') = None).
Proof.
  assert (Hbody : forall w, wp (SM.loop_body settings) w (fun r w' =>
            r = Ok Exited ->
            is_active (mgr w') = false
            ∧ current_video_id (mgr w') = None
            ∧ start_time (mgr w') = None)).
  { clear. intros w. unfold SM.loop_body, SM.loop_cleanup. wp_step.
    eapply wp_mono; [apply get_next_video_returns|].
    intros r w' [next ->].
    destruct next as [[|c v]|]; unfold path_exists; wp_auto; try done.
    wp_cases as [[[p|]|e] w1]; wp_auto; try done. }
  intros Hpc. destruct at_pc as [| |v p| |]; cbn [SM.loop_step]; [| | | |done].
  - unfold SM.loop_from_head, SM.loop_cleanup. wp_auto; [done|]. apply Hbody.
  - apply Hbody.
  - unfold SM.has_exited. wp_auto; [|done].
    unfold SM.loop_from_wait, SM._stream_video_resume. wp_auto.
    eapply wp_mono; [apply stream_video_handlers_returns|].
    intros r w' [[] ->]. wp_auto. done.
  - unfold SM.loop_from_sleep. wp_auto. done.
Qed.

(** *** A session that is active has a start time *)

Ltac unfold_sm1 :=
  unfold SM.loop_from_head, SM.loop_body, SM.loop_from_wait, SM.loop_from_sleep,
    SM.loop_cleanup, SM.loop_except, SM.get_next_video, SM.add_to_queue,
    SM.remove_from_queue, SM._save_queue,
    SM._stream_video_begin, SM._stream_video_resume, SM.stream_video_handlers,
    SM.after_wait, SM.self_process, SM.proc, SM.has_exited, SM.dict_get,
    SM.py_mul2, SM.loop_test, SM.loop_enter,
    SM.popen, SM.stop_stream, SM.skip_current, SM.terminate_and_wait,
    SM.terminate, SM.wait_timeout, SM.kill, SM.set_returncode,
    SM.start_stream, path_exists, load_settings, save_settings.
Ltac unfold_sm := repeat progress unfold_sm1.

Lemma loop_step_active_has_start settings at_pc w :
  active_has_start (mgr w) ->
  wp (SM.loop_step settings at_pc) w (fun _ w' => active_has_start (mgr w')).
Proof.
  intros Hinv. destruct at_pc as [| |v p| |]; cbn [SM.loop_step]; unfold_sm.
  all: wp_auto; unfold active_has_start in *; wcbv; try done.
  all: try (intros _; match goal with H : start_time _ = Some _ |- _ => rewrite H end; eauto).
Qed.

Ltac solve_active_has_start :=
  wp_auto; unfold active_has_start in *; wcbv; try done;
  try (intros _;
       match goal with H : start_time _ = Some _ |- _ => rewrite H end; eauto).

Lemma exec_active_has_start a w :
  active_has_start (mgr w) -> active_has_start (mgr (exec a w)).
Proof.
  intros Hinv. destruct a as [| | |v|v|tid|p|dt|tid']; cbn [exec].
  - change (wp Api.start_stream w (fun _ w' => active_has_start (mgr w'))).
    unfold Api.start_stream; unfold_sm. solve_active_has_start.
  - change (wp Api.stop_stream w (fun _ w' => active_has_start (mgr w'))).
    unfold Api.stop_stream; unfold_sm. solve_active_has_start.
  - change (wp Api.skip_video w (fun _ w' => active_has_start (mgr w'))).
    unfold Api.skip_video; unfold_sm. solve_active_has_start.
  - change (wp (Api.add_to_queue v) w (fun _ w' => active_has_start (mgr w'))).
    unfold Api.add_to_queue; unfold_sm. solve_active_has_start.
  - change (wp (Api.remove_from_queue v) w (fun _ w' => active_has_start (mgr w'))).
    unfold Api.remove_from_queue; unfold_sm. solve_active_has_start.
  - unfold thread_step. destruct (threads w !! tid) as [th|]; [|done].
    pose proof (loop_step_active_has_start (th_settings th) (th_pc th) w Hinv) as H.
    unfold wp in H.
    destruct (SM.loop_step (th_settings th) (th_pc th) w) as [[pc'|e] w']; done.
  - unfold process_exits. destruct (procs (env w) !! p) as [pr|]; [|done].
    by destruct (returncode pr).
  - done.
  - unfold thread_enter. destruct (threads w !! tid') as [th|]; [|done].
    assert (wp (SM.loop_enter (th_pc th)) w
              (fun _ w' => active_has_start (mgr w'))) as H.
    { destruct (th_pc th); cbn [SM.loop_enter]; unfold_sm;
        solve_active_has_start. }
    unfold wp in H.
    destruct (SM.loop_enter (th_pc th) w) as [[pc'|e] w']; done.
Qed.

Lemma boot_active_has_start e : active_has_start (mgr (boot e)).
Proof.
  unfold boot.
  change (wp SM._load_queue (mkWorld (mkSM None false None None [] None false) e [])
             (fun _ w' => active_has_start (mgr w'))).
  unfold SM._load_queue. solve_active_has_start.
Qed.

Lemma run_active_has_start acts : forall w,
  active_has_start (mgr w) -> active_has_start (mgr (run acts w)).
Proof.
  unfold run. induction acts as [|a acts IH]; intros w Hinv; cbn [foldl]; [done|].
  apply IH. by apply exec_active_has_start.
Qed.

(** ** The status reporter *)

Lemma get_status_run w :
  get_status w
  = (Ok (StreamStatus.mk
           (is_active (mgr w)) (current_video_id (mgr w))
           (if truthy (start_time (mgr w))
            then py_int (clock (env w) - default 0%Q (start_time (mgr w)))%Q
            else 0)
           (if is_active (mgr w) then "streaming" else "idle")
           (queue (mgr w)) 0),
     w).
Proof. reflexivity. Qed.

(** C10: whatever the state, the snapshot of [get_status] carries the viewer
    count 0; the field is the literal of line 260 and depends on nothing. *)
Theorem viewer_count_is_zero (w : World) :
  exists st, get_status w = (Ok st, w) ∧ StreamStatus.viewerCount st = 0.
Proof. rewrite get_status_run. by eexists. Qed.

(** ** Starting *)

(** While the flag [is_active] is set, a start request is refused and
    changes nothing. *)
Lemma start_rejected_when_flag_set w :
  is_active (mgr w) = true ->
  Api.start_stream w = (Raise AlreadyActiveError, w).
Proof.
  intros Ha. apply wp_eq. unfold Api.start_stream.
  repeat first [wp_step | rewrite Ha]. reflexivity.
Qed.

(** C9: with no session active, a start request on an empty queue is refused
    with the empty-queue error and leaves the whole world as it was: no
    thread is created and every field of the manager keeps its value. *)
Theorem start_on_empty_queue (w : World) :
  is_active (mgr w) = false ->
  queue (mgr w) = [] ->
  Api.start_stream w = (Raise EmptyQueueError, w).
Proof.
  intros Ha Hq. apply wp_eq. unfold Api.start_stream.
  repeat first [wp_step | rewrite Ha | rewrite Hq]. reflexivity.
Qed.

Lemma load_settings_returns w :
  settings_available (env w) ->
  wp load_settings w (fun r w' =>
    returns r w' ∧ mgr w' = mgr w ∧ threads w' = threads w).
Proof.
  intros Hs. unfold load_settings, save_settings.
  destruct Hs as [[s Hs]|Hd].
  - repeat first [wp_step | rewrite Hs]. eauto.
  - wp_auto; wcbv; try congruence; eauto.
Qed.

(** An accepted start request creates one loop thread, at the top of the
    loop, and leaves the session flags alone: [is_active] is only set later,
    by the thread itself (line 190). *)
Lemma start_accepted w :
  is_active (mgr w) = false ->
  queue (mgr w) ≠ [] ->
  settings_available (env w) ->
  exists settings w',
    Api.start_stream w = (Ok "Stream started successfully", w')
    ∧ threads w' = threads w ++ [mkThread settings LoopHead]
    ∧ is_active (mgr w') = false
    ∧ queue (mgr w') = queue (mgr w).
Proof.
  intros Ha Hq Hs.
  enough (wp Api.start_stream w (fun r w' =>
            r = Ok "Stream started successfully"
            ∧ (exists settings, threads w' = threads w ++ [mkThread settings LoopHead])
            ∧ is_active (mgr w') = false
            ∧ queue (mgr w') = queue (mgr w))) as H.
  { apply wp_inv in H as (r & w' & Hrun & -> & [settings Ht] & ? & ?).
    by exists settings, w'. }
  unfold Api.start_stream.
  repeat first [wp_step | rewrite Ha].
  rewrite bool_decide_eq_false_2 by done.
  wp_step. eapply wp_mono; [by apply load_settings_returns|].
  intros r w' ([settings ->] & Hm & Ht). cbv beta iota.
  unfold SM.start_stream.
  repeat first [wp_step | rewrite Hm, Ha].
  wsimpl. rewrite Hm, Ht. eauto.
Qed.

(** ** Stopping and skipping *)

Ltac clean_bools :=
  repeat match goal with
    | H : bool_decide _ = true |- _ => apply bool_decide_eq_true in H
    | H : bool_decide _ = false |- _ => apply bool_decide_eq_false in H
    | H : negb _ = true |- _ => apply negb_true_iff in H
    | H : negb _ = false |- _ => apply negb_false_iff in H
    end.

Lemma stop_stream_post w :
  wp Api.stop_stream w (fun r w' =>
    (exists msg, r = Ok msg) ->
    is_active (mgr w') = false
    ∧ process (mgr w') = None
    ∧ current_video_id (mgr w') = None
    ∧ start_time (mgr w') = None
    ∧ queue (mgr w') = queue (mgr w)
    ∧ threads w' = threads w
    ∧ settings_file (env w') = settings_file (env w)
    ∧ disk_writable (env w') = disk_writable (env w)).
Proof.
  unfold Api.stop_stream. unfold_sm.
  wp_auto; wcbv; intros [msg ?]; try done.
  clean_bools. split_and!; try done. by apply eq_None_not_Some.
Qed.

Lemma stop_rejected_when_idle w :
  is_active (mgr w) = false ->
  Api.stop_stream w = (Raise NotActiveError, w).
Proof.
  intros Ha. apply wp_eq. unfold Api.stop_stream.
  repeat first [wp_step | rewrite Ha]. reflexivity.
Qed.

(** A stop request on an active session returns unless the kill fails. *)
Lemma stop_stream_returns w :
  is_active (mgr w) = true ->
  ¬ kill_would_fail w ->
  wp Api.stop_stream w (fun r _ => r = Ok "Stream stopped successfully").
Proof.
  intros Ha Hk. unfold Api.stop_stream. unfold_sm.
  wp_auto; try done; wcbv; clean_bools; try congruence.
  all: simplify_eq;
       repeat match goal with
              | H : context [alter _ ?i _ !! ?i] |- _ =>
                  rewrite list_lookup_alter_eq in H
              end;
       simplify_option_eq.
  all: exfalso; apply Hk; unfold kill_would_fail; wcbv.
  all: eexists _, _; split_and!; eauto.
Qed.

(** A skip request on a live process that can be signalled: the request
    succeeds, the process has exited with a non-zero status, and nothing
    else has changed but the trace; the manager is untouched. *)
Lemma skip_video_post w p pr :
  is_active (mgr w) = true ->
  process (mgr w) = Some p ->
  procs (env w) !! p = Some pr ->
  returncode pr = None ->
  terminate_fails (behaviour pr) = false ->
  (ignores_sigterm (behaviour pr) = true -> kill_fails (behaviour pr) = false) ->
  wp Api.skip_video w (fun r w' =>
    r = Ok "Skipped to next video"
    ∧ mgr w' = mgr w
    ∧ threads w' = threads w
    ∧ files (env w') = files (env w)
    ∧ ffmpeg (env w') = ffmpeg (env w)
    ∧ exists code, code ≠ 0
        ∧ procs (env w')
          = alter (fun pr => mkPopen (args pr) (behaviour pr) (Some code)) p
                  (procs (env w))).
Proof.
  intros Ha Hp Hpr Hrc Ht Hk. unfold Api.skip_video. unfold_sm.
  wp_auto; wcbv; clean_bools; try congruence.
  all: simplify_eq;
       repeat match goal with
              | H : context [alter _ ?i _ !! ?i] |- _ =>
                  rewrite list_lookup_alter_eq in H
              end;
       simplify_option_eq.
  all: try (split_and!; try done; by eexists; split; [|done]).
  all: try (destruct Heqb0; by eexists).
  all: match goal with
       | H : ignores_sigterm _ = true |- _ => specialize (Hk H)
       end; congruence.
Qed.

(** ** Stop, then start, then stop again *)

(** What holds at the moment a stop request returns, before any thread runs
    again: [get_status] reports the session as not active and the manager
    holds no process handle; a start request that follows at once, with a
    non-empty queue and the settings provider answering, is accepted and
    creates the loop thread; and a second stop request is refused with the
    not-active error and leaves the world as it is.  What a loop thread that
    has already passed its test does after that is shown further down, among
    the places where the code leaves its documented behaviour. *)
Lemma stop_then_start_then_stop (w w1 : World) (msg : string) :
  Api.stop_stream w = (Ok msg, w1) ->
  (exists st, get_status w1 = (Ok st, w1) ∧ StreamStatus.isActive st = false)
  ∧ process (mgr w1) = None
  ∧ (queue (mgr w1) ≠ [] -> settings_available (env w1) ->
     exists settings w2,
       Api.start_stream w1 = (Ok "Stream started successfully", w2)
       ∧ threads w2 = threads w1 ++ [mkThread settings LoopHead])
  ∧ Api.stop_stream w1 = (Raise NotActiveError, w1).
Proof.
  intros Hstop.
  pose proof (stop_stream_post w) as Hpost. unfold wp in Hpost.
  rewrite Hstop in Hpost. cbn [fst snd] in Hpost.
  destruct Hpost as (Ha & Hp & _); [by eexists|].
  split_and!.
  - rewrite get_status_run. eexists. split; [done|]. done.
  - done.
  - intros Hq Hs.
    destruct (start_accepted w1 Ha Hq Hs) as (settings & w2 & Hrun & Ht & _).
    by exists settings, w2.
  - by apply stop_rejected_when_idle.
Qed.

(** ** What a step of a thread changes *)

Ltac unfold_all1 :=
  unfold SM.loop_step, SM.loop_from_head, SM.loop_body, SM.loop_from_wait, SM.loop_from_sleep,
    SM.loop_cleanup, SM.loop_except, SM.get_next_video, SM.add_to_queue,
    SM.remove_from_queue, SM._save_queue, SM._load_queue,
    SM._stream_video_begin, SM._stream_video_resume, SM.stream_video_handlers,
    SM.after_wait, SM.self_process, SM.proc, SM.has_exited, SM.dict_get,
    SM.py_mul2, SM.loop_test, SM.loop_enter,
    SM.popen, SM.stop_stream, SM.skip_current, SM.terminate_and_wait,
    SM.terminate, SM.wait_timeout, SM.kill, SM.set_returncode,
    SM.start_stream, path_exists, load_settings, save_settings,
    Api.start_stream, Api.stop_stream, Api.skip_video, Api.add_to_queue,
    Api.remove_from_queue, Api.get_queue, Api.get_status, get_status,
    delete_video, unlink, get_settings, update_settings.
Ltac unfold_all := repeat progress unfold_all1.

Ltac open_world w :=
  let m := fresh "m" in let e := fresh "e" in let t := fresh "ths" in
  destruct w as [m e t];
  destruct m as [h_proc h_active h_current h_start h_queue h_thread h_stop];
  destruct e as [e_files e_qfile e_sfile e_disk e_clock e_ffmpeg e_procs e_trace].

Lemma loop_step_effect settings at_pc w :
  wp (SM.loop_step settings at_pc) w (fun _ w' =>
    threads w' = threads w
    ∧ should_stop (mgr w') = should_stop (mgr w)
    ∧ stream_thread (mgr w') = stream_thread (mgr w)
    ∧ (queue (mgr w') = queue (mgr w) ∨ queue (mgr w') = tail (queue (mgr w)))
    ∧ files (env w') = files (env w)
    ∧ ffmpeg (env w') = ffmpeg (env w)
    ∧ settings_file (env w') = settings_file (env w)
    ∧ disk_writable (env w') = disk_writable (env w)
    ∧ (start_time (mgr w') = start_time (mgr w)
       ∨ start_time (mgr w') = None
       ∨ (start_time (mgr w) = None
          ∧ start_time (mgr w') = Some (clock (env w))))
    ∧ (disk_writable (env w) = true ->
       loaded (queue_file (env w)) = queue (mgr w) ->
       loaded (queue_file (env w')) = queue (mgr w'))).
Proof.
  open_world w. destruct at_pc as [| |v p| |]; unfold_all.
  all: wp_auto; wcbv; simplify_eq.
  all: split_and!; try done; eauto.
  all: try (intros; congruence).
Qed.

(** What a step of a thread is, in terms of the step of the loop. *)
Lemma thread_step_cases tid w :
  thread_step tid w = w
  ∨ exists th pc' w',
      threads w !! tid = Some th
      ∧ SM.loop_step (th_settings th) (th_pc th) w = (Ok pc', w')
      ∧ thread_step tid w
        = set_threads (<[tid := mkThread (th_settings th) pc']> (threads w')) w'.
Proof.
  unfold thread_step. destruct (threads w !! tid) as [th|] eqn:Hth; [|by left].
  right. pose proof (loop_step_returns (th_settings th) (th_pc th) w) as Hret.
  unfold wp, returns in Hret.
  destruct (SM.loop_step (th_settings th) (th_pc th) w) as [r w'] eqn:E.
  cbn [fst snd] in Hret. destruct Hret as [pc' ->].
  exists th, pc', w'. split_and!; [done|done|reflexivity].
Qed.

(** What the evaluation of the loop test alone comes to: nothing for a
    thread that is not at the test; a thread at the test is let in, with no
    other change, or leaves the loop as a whole step from there does. *)
Lemma thread_enter_cases tid w :
  thread_enter tid w = w
  ∨ (exists th,
       threads w !! tid = Some th ∧ th_pc th = LoopHead
       ∧ should_stop (mgr w) = false
       ∧ thread_enter tid w
         = set_threads (<[tid := mkThread (th_settings th) Entered]> (threads w)) w)
  ∨ (exists th,
       threads w !! tid = Some th ∧ th_pc th = LoopHead
       ∧ should_stop (mgr w) = true
       ∧ thread_enter tid w = thread_step tid w).
Proof.
  unfold thread_enter, thread_step.
  destruct (threads w !! tid) as [[st pc0]|] eqn:Hth; [|by left].
  destruct pc0; cbn [SM.loop_enter SM.loop_step th_pc th_settings];
    try (left; unfold ret; rewrite list_insert_id by done; by destruct w).
  unfold SM.loop_test, SM.loop_from_head, bind, get.
  destruct (should_stop (mgr w)) eqn:Hs; cbv beta iota; right.
  - right. by eexists.
  - left. by eexists.
Qed.

(** ** The end of the loop, and the status while a session runs *)

Lemma truthy_nonzero t : ¬ (t == 0)%Q -> truthy (Some t) = true.
Proof.
  intros Ht. unfold truthy. apply negb_true_iff.
  destruct (Qeq_bool t 0) eqn:E; [|done].
  by apply Qeq_bool_iff in E.
Qed.

(** [int(x)] of a float that is not negative: the whole units in it. *)
Lemma py_int_whole (x : Q) :
  (0 <= x)%Q ->
  0 <= py_int x
  ∧ (inject_Z (py_int x) <= x)%Q
  ∧ (x < inject_Z (py_int x) + 1)%Q.
Proof.
  destruct x as [n d]. unfold py_int, Qle, Qlt, inject_Z, Qplus. simpl.
  intros Hn. rewrite Z.mul_1_r in Hn.
  rewrite Z.quot_div_nonneg by lia.
  pose proof (Z.div_mod n (Z.pos d) ltac:(lia)) as Hdm.
  pose proof (Z.mod_pos_bound n (Z.pos d) ltac:(lia)) as Hb.
  pose proof (Z.div_pos n (Z.pos d) Hn ltac:(lia)) as Hq.
  split_and!; [done|nia|nia].
Qed.

(** A program that only appends to the thread list leaves the threads
    there are where they stand. *)
Lemma request_threads {A} (prog : M A) w tid th :
  wp prog w (fun _ w' => exists more, threads w' = threads w ++ more) ->
  threads w !! tid = Some th ->
  threads (state_after prog w) !! tid = Some th.
Proof.
  unfold wp, state_after. intros [more ->] Hth. by apply lookup_app_l_Some.
Qed.

(** What a call can do to a thread: nothing, let it pass the loop test, or
    take it through a step of the loop. *)
Lemma exec_thread a w tid th th' :
  threads w !! tid = Some th ->
  threads (exec a w) !! tid = Some th' ->
  th' = th
  ∨ (th_pc th = LoopHead ∧ th_pc th' = Entered)
  ∨ exists w1,
      SM.loop_step (th_settings th) (th_pc th) w = (Ok (th_pc th'), w1)
      ∧ mgr (exec a w) = mgr w1 ∧ env (exec a w) = env w1.
Proof.
  intros Hth Hth'.
  assert (Hreq : forall {A} (prog : M A),
            wp prog w (fun _ w' => exists more, threads w' = threads w ++ more) ->
            threads (state_after prog w) !! tid = Some th' -> th' = th).
  { intros A prog Hwp H. rewrite (request_threads prog w tid th Hwp Hth) in H.
    by simplify_eq. }
  assert (Hstep : forall t, threads (thread_step t w) !! tid = Some th' ->
            th' = th
            ∨ exists w1,
                SM.loop_step (th_settings th) (th_pc th) w = (Ok (th_pc th'), w1)
                ∧ mgr (thread_step t w) = mgr w1 ∧ env (thread_step t w) = env w1).
  { clear Hth' Hreq. intros t Hth'.
    destruct (thread_step_cases t w) as [E|(th0 & pc' & w1 & Ht & Hrun & E)];
      rewrite E in *; [left; by simplify_eq|].
    pose proof (loop_step_effect (th_settings th0) (th_pc th0) w) as Heff.
    unfold wp in Heff. rewrite Hrun in Heff. cbn [fst snd] in Heff.
    destruct Heff as (Hts & _). cbn [threads set_threads] in Hth'.
    rewrite Hts in Hth'.
    destruct (decide (t = tid)) as [->|Hne].
    - rewrite list_lookup_insert_eq in Hth' by by eapply lookup_lt_Some.
      simplify_eq. right. exists w1. done.
    - rewrite list_lookup_insert_ne in Hth' by done. left. by simplify_eq. }
  destruct a as [| | |v|v|t|p|dt|t]; cbn [exec] in *.
  - left. eapply Hreq; [|done]. clear. open_world w. unfold_all.
    wp_auto; wcbv; first [by exists []; rewrite app_nil_r | by eexists].
  - left. eapply Hreq; [|done]. clear. open_world w. unfold_all.
    wp_auto; wcbv; first [by exists []; rewrite app_nil_r | by eexists].
  - left. eapply Hreq; [|done]. clear. open_world w. unfold_all.
    wp_auto; wcbv; first [by exists []; rewrite app_nil_r | by eexists].
  - left. eapply Hreq; [|done]. clear. open_world w. unfold_all.
    wp_auto; wcbv; first [by exists []; rewrite app_nil_r | by eexists].
  - left. eapply Hreq; [|done]. clear. open_world w. unfold_all.
    wp_auto; wcbv; first [by exists []; rewrite app_nil_r | by eexists].
  - destruct (Hstep t Hth') as [?|?]; [by left|by right; right].
  - left. unfold process_exits in Hth'.
    destruct (procs (env w) !! p) as [pr|]; [|by simplify_eq].
    destruct (returncode pr); cbn in Hth'; by simplify_eq.
  - left. cbn in Hth'. by simplify_eq.
  - destruct (thread_enter_cases t w)
      as [E|[(th0 & Ht & Hpc & _ & E)|(th0 & _ & _ & _ & E)]]; rewrite E in *.
    + left. by simplify_eq.
    + cbn [threads set_threads] in Hth'.
      destruct (decide (t = tid)) as [->|Hne].
      * rewrite list_lookup_insert_eq in Hth' by by eapply lookup_lt_Some.
        simplify_eq. right. left. done.
      * rewrite list_lookup_insert_ne in Hth' by done. left. by simplify_eq.
    + destruct (Hstep t Hth') as [?|?]; [by left|by right; right].
Qed.

(** C5: (1) whenever the loop of a thread ends, whatever the call that
    brings it about (a step of the thread, or the evaluation of the loop
    test after a stop request), the session fields are reset ([is_active]
    false, no current video, no start time) and the [get_status] that
    follows reports "idle" with uptime 0; no exit of the loop escapes this,
    an exception cannot end the loop.  (2) In every state the system reaches
    from its construction in which the session is active, a start time is
    recorded, [get_status] reports "streaming", and the uptime is [now -
    start_time] cut to whole time units: the integer [u] with
    [u <= now - start_time < u + 1] when the clock has not gone backwards
    (for a start time other than the float 0.0, which Python treats as
    absent). *)
Theorem loop_exit_resets_session :
  (forall (w : World) (a : action) (tid : nat) (th th' : Thread),
     threads w !! tid = Some th ->
     th_pc th ≠ Exited ->
     threads (exec a w) !! tid = Some th' ->
     th_pc th' = Exited ->
     let w' := exec a w in
     is_active (mgr w') = false
     ∧ current_video_id (mgr w') = None
     ∧ start_time (mgr w') = None
     ∧ exists st, get_status w' = (Ok st, w')
                  ∧ StreamStatus.isActive st = false
                  ∧ StreamStatus.status st = "idle"
                  ∧ StreamStatus.uptime st = 0)
  ∧ (forall (e : Env) (acts : list action),
       let w := run acts (boot e) in
       is_active (mgr w) = true ->
       exists st t, get_status w = (Ok st, w)
                    ∧ start_time (mgr w) = Some t
                    ∧ StreamStatus.isActive st = true
                    ∧ StreamStatus.status st = "streaming"
                    ∧ (¬ (t == 0)%Q ->
                       StreamStatus.uptime st = py_int (clock (env w) - t)%Q
                       ∧ ((t <= clock (env w))%Q ->
                          0 <= StreamStatus.uptime st
                          ∧ (inject_Z (StreamStatus.uptime st)
                             <= clock (env w) - t)%Q
                          ∧ (clock (env w) - t
                             < inject_Z (StreamStatus.uptime st) + 1)%Q))).
Proof.
  split.
  - intros w a tid th th' Hth Hpc Hth' Hex w'.
    assert (is_active (mgr w') = false
            ∧ current_video_id (mgr w') = None
            ∧ start_time (mgr w') = None) as (H1 & H2 & H3).
    { subst w'.
      destruct (exec_thread a w tid th th' Hth Hth')
        as [->|[[_ He]|(w1 & Hrun & -> & _)]]; [done|congruence|].
      pose proof (loop_step_exit (th_settings th) (th_pc th) w Hpc) as Hexit.
      unfold wp in Hexit. rewrite Hrun in Hexit. cbn [fst snd] in Hexit.
      apply Hexit. by rewrite Hex. }
    rewrite get_status_run. rewrite H1, H2, H3.
    split_and!; try done. by eexists.
  - intros e acts w. subst w. intros Ha.
    destruct (run_active_has_start acts (boot e) (boot_active_has_start e) Ha)
      as [t Ht].
    rewrite get_status_run. eexists _, t. split; [done|].
    rewrite Ha, Ht. split_and!; try done.
    intros Hnz. cbn [StreamStatus.uptime]. rewrite truthy_nonzero by done.
    split; [done|]. intros Hle. apply py_int_whole.
    cbn [default]. by apply (proj1 (Qle_minus_iff _ _)).
Qed.

(** ** Missing files and skipped videos *)

Lemma playable_frame settings w w' v beh :
  files (env w') = files (env w) ->
  ffmpeg (env w') = ffmpeg (env w) ->
  playable settings w v beh -> playable settings w' v beh.
Proof.
  intros Hf Hff (Hv & Hfile & u & k & b & r & f & H1 & H2 & H3 & Hd & H4 & H5 & Hrun).
  split; [done|]. split; [by rewrite Hf|].
  exists u, k, b, r, f. rewrite Hff. done.
Qed.

Lemma thread_step_at tid w settings at_pc pc' w' :
  threads w !! tid = Some (mkThread settings at_pc) ->
  SM.loop_step settings at_pc w = (Ok pc', w') ->
  threads w' = threads w ->
  thread_step tid w
  = set_threads (<[tid := mkThread settings pc']> (threads w)) w'
  ∧ threads (thread_step tid w) !! tid = Some (mkThread settings pc').
Proof.
  intros Hth Hrun Ht.
  rewrite (thread_step_run tid w _ pc' w' Hth Hrun). cbn [th_settings].
  rewrite Ht. split; [done|]. cbn [threads set_threads].
  apply list_lookup_insert_eq. by eapply lookup_lt_Some.
Qed.

(** C7: the loop thread stands at the top of the loop, the queue starts with
    [a], whose file is not on disk, followed by a playable [b].  The next
    step of the thread consumes [a], logs that it is skipped, starts no
    process and leaves the thread in the loop with the session flag as it
    was; the step after that starts ffmpeg on [b], with the session active,
    [b] current and the rest of the queue waiting. *)
Theorem missing_video_is_skipped
        (w : World) (tid : nat) (settings : Settings)
        (a b : string) (rest : list string) (beh : Behaviour) :
  threads w !! tid = Some (mkThread settings LoopHead) ->
  should_stop (mgr w) = false ->
  queue (mgr w) = a :: b :: rest ->
  a ≠ "" ->
  path_join VIDEOS_DIR a ∉ files (env w) ->
  playable settings w b beh ->
  let w1 := exec (Step tid) w in
  let w2 := exec (Step tid) w1 in
  (threads w1 !! tid = Some (mkThread settings LoopHead)
   ∧ last (trace (env w1))
     = Some (Printed ("Video " +:+ a +:+ " not found. Skipping."))
   ∧ queue (mgr w1) = b :: rest
   ∧ is_active (mgr w1) = is_active (mgr w)
   ∧ procs (env w1) = procs (env w))
  ∧ (threads w2 !! tid
     = Some (mkThread settings (Waiting b (length (procs (env w)))))
     ∧ is_active (mgr w2) = true
     ∧ current_video_id (mgr w2) = Some (path_name (path_join VIDEOS_DIR b))
     ∧ process (mgr w2) = Some (length (procs (env w)))
     ∧ queue (mgr w2) = rest
     ∧ exists rtmp_url stream_key bitrate resolution fps,
         procs (env w2)
         = procs (env w)
           ++ [mkPopen (ffmpeg_argv (path_join VIDEOS_DIR b) rtmp_url
                          stream_key bitrate resolution fps) beh None]).
Proof.
  intros Hth Hstop Hq Ha Hmiss Hplay w1 w2. subst w2 w1. cbn [exec].
  pose proof (loop_head_skips_missing settings w a (b :: rest)
                Hstop Hq Ha Hmiss) as Hrun1.
  set (w1 := upd_env _ (saved _)) in Hrun1.
  assert (Hw1 : mgr w1 = set_queue (b :: rest) (mgr w)
                ∧ threads w1 = threads w
                ∧ files (env w1) = files (env w)
                ∧ ffmpeg (env w1) = ffmpeg (env w)
                ∧ procs (env w1) = procs (env w)).
  { subst w1. wsimpl.
    rewrite saved_mgr, saved_threads, saved_files, saved_ffmpeg, saved_procs.
    done. }
  destruct Hw1 as (Hm1 & Ht1 & Hf1 & Hff1 & Hp1).
  destruct (thread_step_at tid w settings LoopHead LoopHead w1 Hth Hrun1 Ht1)
    as [Hstep1 Hth1].
  split.
  - rewrite Hth1, Hstep1. cbn [mgr env set_threads]. rewrite Hm1, Hp1.
    split_and!; try done.
    subst w1. wsimpl. by rewrite last_snoc.
  - set (u1 := thread_step tid w) in *.
    assert (Hu : mgr u1 = mgr w1 ∧ env u1 = env w1) by by rewrite Hstep1.
    destruct Hu as [Hum Hue].
    destruct (loop_head_starts settings u1 b rest beh)
      as (u & k & bt & r & f & Hrun2).
    { by rewrite Hum, Hm1. }
    { by rewrite Hum, Hm1. }
    { apply (playable_frame settings w); [by rewrite Hue| by rewrite Hue |done]. }
    set (w2 := streaming _ _ _) in Hrun2.
    assert (Ht2 : threads w2 = threads u1).
    { subst w2. unfold streaming. cbn [threads]. by rewrite saved_threads. }
    destruct (thread_step_at tid u1 settings LoopHead _ w2 Hth1 Hrun2 Ht2)
      as [Hstep2 Hth2].
    assert (Hlen : length (procs (env u1)) = length (procs (env w)))
      by by rewrite Hue, Hp1.
    rewrite Hth2, Hstep2, Hlen. cbn [mgr env set_threads].
    subst w2. unfold streaming. wsimpl.
    rewrite saved_mgr, saved_procs. wsimpl. rewrite Hlen, Hue, Hp1.
    split_and!; try done. by exists u, k, bt, r, f.
Qed.

(** C8: a session plays [a] in process [p] (the loop thread is blocked in
    [wait()], the process can be signalled) while the queue holds [b]
    followed by [rest], [b] playable.  The skip request succeeds and changes
    no field of the manager, the queue in particular; of the processes only
    [p] is affected, it has exited.  The thread then leaves [wait()] with
    the queue still [b :: rest], and its next step starts ffmpeg on [b] and
    leaves [rest] in the queue: [a] is neither queued again nor started
    again, the one process created after the skip plays [b]. *)
Theorem skip_advances_to_next
        (w : World) (tid : nat) (settings : Settings)
        (a b : string) (rest : list string)
        (p : pid) (pr : Popen) (beh : Behaviour) :
  threads w !! tid = Some (mkThread settings (Waiting a p)) ->
  is_active (mgr w) = true ->
  should_stop (mgr w) = false ->
  process (mgr w) = Some p ->
  procs (env w) !! p = Some pr ->
  returncode pr = None ->
  terminate_fails (behaviour pr) = false ->
  (ignores_sigterm (behaviour pr) = true -> kill_fails (behaviour pr) = false) ->
  queue (mgr w) = b :: rest ->
  playable settings w b beh ->
  let w1 := exec Skip w in
  let w2 := exec (Step tid) w1 in
  let w3 := exec (Step tid) w2 in
  (fst (Api.skip_video w) = Ok "Skipped to next video"
   ∧ mgr w1 = mgr w
   ∧ threads w1 = threads w
   ∧ length (procs (env w1)) = length (procs (env w))
   ∧ (forall p', p' ≠ p -> procs (env w1) !! p' = procs (env w) !! p')
   ∧ is_Some (procs (env w1) !! p ≫= returncode))
  ∧ (threads w2 !! tid = Some (mkThread settings LoopHead)
     ∧ queue (mgr w2) = b :: rest
     ∧ current_video_id (mgr w2) = None
     ∧ procs (env w2) = procs (env w1))
  ∧ (threads w3 !! tid
     = Some (mkThread settings (Waiting b (length (procs (env w)))))
     ∧ queue (mgr w3) = rest
     ∧ current_video_id (mgr w3) = Some (path_name (path_join VIDEOS_DIR b))
     ∧ is_active (mgr w3) = true
     ∧ exists rtmp_url stream_key bitrate resolution fps,
         procs (env w3)
         = procs (env w1)
           ++ [mkPopen (ffmpeg_argv (path_join VIDEOS_DIR b) rtmp_url
                          stream_key bitrate resolution fps) beh None]).
Proof.
  intros Hth Ha Hstop Hp Hpr Hrc Hterm Hkill Hq Hplay w1 w2 w3.
  subst w3 w2 w1. cbn [exec]. unfold state_after.
  pose proof (skip_video_post w p pr Ha Hp Hpr Hrc Hterm Hkill) as Hskip.
  unfold wp in Hskip.
  destruct (Api.skip_video w) as [r w1]. cbn [fst snd] in *.
  destruct Hskip as (-> & Hm1 & Ht1 & Hf1 & Hff1 & code & Hcode & Hp1).
  assert (Hlen1 : length (procs (env w1)) = length (procs (env w)))
    by by rewrite Hp1, length_alter.
  assert (Hex : is_Some (procs (env w1) !! p ≫= returncode)).
  { rewrite Hp1, list_lookup_alter_eq, Hpr. by eexists. }
  split.
  { split_and!; try done.
    intros p' Hne. rewrite Hp1. by apply list_lookup_alter_ne. }
  (* the thread leaves [wait()] *)
  assert (Hth1 : threads w1 !! tid = Some (mkThread settings (Waiting a p)))
    by by rewrite Ht1.
  assert (Hp1' : process (mgr w1) = Some p) by by rewrite Hm1.
  pose proof (loop_wait_resumes settings a p w1 Hp1' Hex) as Hrun2.
  destruct (resumed_frame p w1) as (Hm2 & Ht2 & Hf2 & Hff2 & Hp2 & _).
  destruct (thread_step_at tid w1 settings _ _ _ Hth1 Hrun2 Ht2)
    as [Hstep2 Hth2].
  set (w2 := thread_step tid w1) in *.
  assert (Hw2 : mgr w2 = mgr (resumed p w1) ∧ env w2 = env (resumed p w1))
    by by rewrite Hstep2.
  destruct Hw2 as [Hw2m Hw2e].
  split.
  { rewrite Hw2m, Hw2e, Hm2, Hm1, Hp2. wsimpl. done. }
  (* the thread starts the next video *)
  destruct (loop_head_starts settings w2 b rest beh)
    as (u & k & bt & r & f & Hrun3).
  { rewrite Hw2m, Hm2, Hm1. wsimpl. done. }
  { rewrite Hw2m, Hm2, Hm1. wsimpl. done. }
  { apply (playable_frame settings w); [| |done].
    - by rewrite Hw2e, Hf2, Hf1.
    - by rewrite Hw2e, Hff2, Hff1. }
  set (w3 := streaming _ _ _) in Hrun3.
  assert (Ht3 : threads w3 = threads w2).
  { subst w3. unfold streaming. cbn [threads]. by rewrite saved_threads. }
  destruct (thread_step_at tid w2 settings LoopHead _ w3 Hth2 Hrun3 Ht3)
    as [Hstep3 Hth3].
  assert (Hlen2 : length (procs (env w2)) = length (procs (env w)))
    by by rewrite Hw2e, Hp2.
  rewrite Hth3, Hstep3, Hlen2. cbn [mgr env set_threads].
  subst w3. unfold streaming. wsimpl.
  rewrite saved_mgr, saved_procs. wsimpl. rewrite Hw2e, Hp2.
  split_and!; try done. by exists u, k, bt, r, f.
Qed.

(** ** Where the code leaves its documented behaviour *)

(** C2 (the code falls short): ffmpeg cannot be started and the queue holds
    two entries whose files exist.  [Popen] raises inside the [try] of
    [_stream_video]; the handler of line 209 swallows the exception, so the
    [except] of the loop with its [time.sleep(1)] (lines 147-149) is never
    entered: after the failed attempt on "a" the thread is back at the loop
    test, not sleeping; it goes straight on to "b" and to the end of the
    loop, and the whole run records no sleep and takes no time. *)
Theorem spawn_failure_skips_pause :
  let w0 := exec Start (sample_world ["videos/a"; "videos/b"]
                                     (fun _ => None) ["a"; "b"]) in
  let w3 := run [Step 0%nat; Step 0%nat; Step 0%nat] w0 in
  th_pc <$> threads (exec (Step 0%nat) w0) !! 0%nat = Some LoopHead
  ∧ th_pc <$> threads w3 !! 0%nat = Some Exited
  ∧ trace (env w3)
    = trace (env w0)
      ++ [QueueSaved ["b"];
          Printed "Starting stream: a";
          Printed "Exception during streaming: [Errno 2] No such file or directory: 'ffmpeg'";
          QueueSaved [];
          Printed "Starting stream: b";
          Printed "Exception during streaming: [Errno 2] No such file or directory: 'ffmpeg'";
          Printed "Queue is empty. Stopping stream."]
  ∧ clock (env w3) = clock (env w0).
Proof. vm_compute. split_and!; reflexivity. Qed.

(** The pause of line 149 is reached by the exceptions [_stream_video] raises
    outside its own [try] block, such as a settings dictionary without the
    key "fps": the thread then sleeps one time unit before the next entry. *)
Example incomplete_settings_pause :
  let settings := delete "fps" DEFAULT_SETTINGS in
  let w0 := set_threads [mkThread settings LoopHead]
              (sample_world ["videos/a"] (fun _ => Some plays_well) ["a"]) in
  let w1 := exec (Step 0%nat) w0 in
  let w2 := exec (Step 0%nat) w1 in
  th_pc <$> threads w1 !! 0%nat = Some Sleeping
  ∧ th_pc <$> threads w2 !! 0%nat = Some LoopHead
  ∧ trace (env w2)
    = trace (env w0)
      ++ [QueueSaved []; Printed "Error streaming a: 'fps'"; Slept 1]
  ∧ (clock (env w2) == clock (env w0) + 1)%Q.
Proof. vm_compute. split_and!; reflexivity. Qed.

(** C3 (the code falls short): two start requests in a row, before the loop
    thread of the first has run.  The first is accepted and leaves
    [is_active] clear, since only the thread sets it (line 190); nothing is
    checked or set under the lock.  The second is therefore accepted too:
    two loops are alive, and once each has taken a step two ffmpeg processes
    run side by side.  Only from then on is a further start request refused
    with the already-active error. *)
Theorem double_start_spawns_two_loops :
  let w0 := sample_world ["videos/a"; "videos/b"]
                         (fun _ => Some plays_well) ["a"; "b"] in
  let w1 := exec Start w0 in
  let w2 := exec Start w1 in
  let w4 := run [Step 0%nat; Step 1%nat] w2 in
  fst (Api.start_stream w0) = Ok "Stream started successfully"
  ∧ is_active (mgr w1) = false
  ∧ fst (Api.start_stream w1) = Ok "Stream started successfully"
  ∧ live_loops w2 = 2%nat
  ∧ th_pc <$> threads w4 = [Waiting "a" 0%nat; Waiting "b" 1%nat]
  ∧ running_procs w4 = 2%nat
  ∧ Api.start_stream w4 = (Raise AlreadyActiveError, w4).
Proof. vm_compute. split_and!; reflexivity. Qed.

(** C4 (the code falls short): a stop request that arrives when the loop
    thread has passed the loop test of line 132 and not yet taken the next
    video.  "a" has been played to its end, "b" waits in the queue, the
    thread has found [should_stop] false.  The stop request is accepted,
    finds no process to terminate, marks the session inactive and answers
    with success.  The thread then goes on where it stood: it takes "b",
    sets [is_active] again (line 190) and starts ffmpeg.  After the
    successful stop the status is therefore "streaming" with a process
    running, a start request is refused as already active, and a second
    stop request is accepted instead of being refused. *)
Theorem stop_lets_next_video_start :
  let w := run [Start; Step 0%nat; ProcessExits 0%nat; Step 0%nat; Enter 0%nat]
               (sample_world ["videos/a"; "videos/b"]
                             (fun _ => Some plays_well) ["a"; "b"]) in
  let w1 := exec Stop w in
  let w2 := exec (Step 0%nat) w1 in
  (th_pc <$> threads w !! 0%nat = Some Entered
   ∧ is_active (mgr w) = true ∧ running_procs w = 0%nat)
  ∧ (Api.stop_stream w = (Ok "Stream stopped successfully", w1)
     ∧ is_active (mgr w1) = false ∧ process (mgr w1) = None)
  ∧ (th_pc <$> threads w2 !! 0%nat = Some (Waiting "b" 1%nat)
     ∧ is_active (mgr w2) = true
     ∧ process (mgr w2) = Some 1%nat
     ∧ running_procs w2 = 1%nat
     ∧ exists st, get_status w2 = (Ok st, w2)
                  ∧ StreamStatus.isActive st = true
                  ∧ StreamStatus.status st = "streaming"
                  ∧ StreamStatus.currentVideoId st = Some "b")
  ∧ Api.start_stream w2 = (Raise AlreadyActiveError, w2)
  ∧ fst (Api.stop_stream w2) = Ok "Stream stopped successfully".
Proof.
  vm_compute. split_and!; try reflexivity.
  eexists. split_and!; reflexivity.
Qed.

(** A stop request also leaves a process running when two loops are alive
    (see C3): it terminates the one process [self.process] holds, the one
    started last, and the other loop plays on. *)
Example stop_leaves_other_loop_running :
  let w := run [Start; Start; Step 0%nat; Step 1%nat]
               (sample_world ["videos/a"; "videos/b"]
                             (fun _ => Some plays_well) ["a"; "b"]) in
  let w1 := exec Stop w in
  fst (Api.stop_stream w) = Ok "Stream stopped successfully"
  ∧ process (mgr w1) = None
  ∧ is_active (mgr w1) = false
  ∧ running_procs w1 = 1%nat
  ∧ th_pc <$> threads w1 = [Waiting "a" 0%nat; Waiting "b" 1%nat].
Proof. vm_compute. split_and!; reflexivity. Qed.

(** C6 (the code falls short): the session plays "a" in a process that does
    not exit on SIGTERM and whose kill raises.  [stop_stream] sends SIGTERM,
    waits 5 time units, calls [kill()] inside the [except TimeoutExpired]
    clause, and the exception of [kill()] leaves [stop_stream]: nothing is
    printed, the session stays marked active, and the endpoint answers with
    status 500.  [skip_current] behaves alike. *)
Theorem kill_failure_propagates :
  let w := run [Start; Step 0%nat]
               (sample_world ["videos/a"] (fun _ => Some unkillable) ["a"]) in
  fst (SM.stop_stream w) = Raise (OSError "[Errno 1] Operation not permitted")
  ∧ fst (Api.stop_stream w)
    = Raise (HTTPException 500
               "Error stopping stream: [Errno 1] Operation not permitted")
  ∧ trace (env (exec Stop w)) = trace (env w) ++ [Sigterm 0%nat; Waited 0%nat 5]
  ∧ is_active (mgr (exec Stop w)) = true
  ∧ fst (SM.skip_current w) = Raise (OSError "[Errno 1] Operation not permitted")
  ∧ fst (Api.skip_video w)
    = Raise (HTTPException 500
               "Error skipping video: [Errno 1] Operation not permitted")
  ∧ trace (env (exec Skip w)) = trace (env w) ++ [Sigterm 0%nat; Waited 0%nat 5].
Proof. vm_compute. split_and!; reflexivity. Qed.

(** ** Instances *)

Lemma queue_fifo_no_duplicates_witness :
  let ops := [QAdd "a"; QAdd "b"; QAdd "a"; QRemove "a"; QAdd "a"; QPop] in
  let w' := queue_calls ops (boot (sample_env [] (fun _ => None))) in
  NoDup (queue (mgr w'))
  ∧ (exists st, get_status w' = (Ok st, w')
                ∧ StreamStatus.queue st = fifo_order ops)
  ∧ (forall v, v ∈ queue (mgr w') -> SM.add_to_queue v w' = (Ok tt, w')).
Proof.
  apply (queue_fifo_no_duplicates (boot (sample_env [] (fun _ => None)))).
  reflexivity.
Defined.

Lemma start_on_empty_queue_witness :
  let w := boot (sample_env ["videos/a"] (fun _ => Some plays_well)) in
  Api.start_stream w = (Raise EmptyQueueError, w).
Proof. apply start_on_empty_queue; reflexivity. Defined.

Lemma loop_exit_resets_session_witness :
  (* the queue runs empty after "a" has been played *)
  (let w := run [Start; Step 0%nat; ProcessExits 0%nat; Step 0%nat]
                (sample_world ["videos/a"] (fun _ => Some plays_well) ["a"]) in
   let w' := exec (Step 0%nat) w in
   (is_active (mgr w) = true ∧ start_time (mgr w) = Some 1700000000%Q
    ∧ th_pc <$> threads w !! 0%nat = Some LoopHead)
   ∧ th_pc <$> threads w' !! 0%nat = Some Exited
   ∧ is_active (mgr w') = false
   ∧ current_video_id (mgr w') = None
   ∧ start_time (mgr w') = None)
  (* a stop request is seen at the loop test while the session is marked
     active *)
  ∧ (let w := run [Start; Step 0%nat; ProcessExits 0%nat; Step 0%nat;
                   Enter 0%nat; Stop; Step 0%nat; ProcessExits 1%nat;
                   Step 0%nat]
                  (sample_world ["videos/a"; "videos/b"; "videos/c"]
                                (fun _ => Some plays_well) ["a"; "b"; "c"]) in
     let w' := exec (Enter 0%nat) w in
     (is_active (mgr w) = true ∧ should_stop (mgr w) = true
      ∧ th_pc <$> threads w !! 0%nat = Some LoopHead)
     ∧ th_pc <$> threads w' !! 0%nat = Some Exited
     ∧ is_active (mgr w') = false
     ∧ start_time (mgr w') = None
     ∧ queue (mgr w') = ["c"])
  (* the uptime of a session that has run for 42.5 time units *)
  ∧ (let w := run [Enqueue "a"; Start; Step 0%nat; Tick (85 # 2)]
                  (boot (sample_env ["videos/a"] (fun _ => Some plays_well))) in
     exists st, get_status w = (Ok st, w)
                ∧ StreamStatus.status st = "streaming"
                ∧ StreamStatus.uptime st = 42).
Proof.
  split_and!.
  - intros w w'.
    destruct (proj1 loop_exit_resets_session w (Step 0%nat) 0%nat
                (mkThread DEFAULT_SETTINGS LoopHead)
                (mkThread DEFAULT_SETTINGS Exited))
      as (H1 & H2 & H3 & _);
      [vm_compute; reflexivity|discriminate|vm_compute; reflexivity
      |reflexivity|].
    split; [split_and!; vm_compute; reflexivity|].
    split_and!; [vm_compute; reflexivity|exact H1|exact H2|exact H3].
  - intros w w'.
    destruct (proj1 loop_exit_resets_session w (Enter 0%nat) 0%nat
                (mkThread DEFAULT_SETTINGS LoopHead)
                (mkThread DEFAULT_SETTINGS Exited))
      as (H1 & _ & H3 & _);
      [vm_compute; reflexivity|discriminate|vm_compute; reflexivity
      |reflexivity|].
    split; [split_and!; vm_compute; reflexivity|].
    split_and!; [vm_compute; reflexivity|exact H1|exact H3
                |vm_compute; reflexivity].
  - intros w.
    destruct (proj2 loop_exit_resets_session
                (sample_env ["videos/a"] (fun _ => Some plays_well))
                [Enqueue "a"; Start; Step 0%nat; Tick (85 # 2)])
      as (st & t & Hst & Ht & _ & Hs & Hup); [vm_compute; reflexivity|].
    exists st. split_and!; [exact Hst|exact Hs|].
    assert (t = 1700000000%Q) as -> by (vm_compute in Ht; congruence).
    destruct Hup as [-> _]; [vm_compute; discriminate|vm_compute; reflexivity].
Defined.

Lemma missing_video_is_skipped_witness :
  let w := exec Start (sample_world ["videos/b"] (fun _ => Some plays_well)
                                    ["a"; "b"]) in
  let w2 := run [Step 0%nat; Step 0%nat] w in
  queue (mgr w) = ["a"; "b"]
  ∧ threads w2 !! 0%nat = Some (mkThread DEFAULT_SETTINGS (Waiting "b" 0%nat))
  ∧ is_active (mgr w2) = true
  ∧ current_video_id (mgr w2) = Some "b"
  ∧ queue (mgr w2) = [].
Proof.
  intros w w2.
  destruct (missing_video_is_skipped w 0%nat DEFAULT_SETTINGS "a" "b" []
              plays_well)
    as (_ & Hth & Ha & Hc & _ & Hq & _).
  - reflexivity.
  - reflexivity.
  - reflexivity.
  - discriminate.
  - apply (proj1 (bool_decide_eq_false
                    (path_join VIDEOS_DIR "a" ∈ files (env w)))).
    reflexivity.
  - split; [discriminate|]. split.
    { apply (proj1 (bool_decide_eq_true
                      (path_join VIDEOS_DIR "b" ∈ files (env w)))).
      reflexivity. }
    exists (PStr "rtmp://example.com/live"), (PStr "your_stream_key"),
      (PInt 2500), "1920x1080", (PInt 30).
    split_and!; reflexivity.
  - split_and!; [reflexivity|exact Hth|exact Ha|exact Hc|exact Hq].
Defined.

Lemma skip_advances_to_next_witness :
  let w := run [Start; Step 0%nat]
               (sample_world ["videos/a"; "videos/b"; "videos/c"]
                             (fun _ => Some plays_well) ["a"; "b"; "c"]) in
  let w3 := run [Skip; Step 0%nat; Step 0%nat] w in
  current_video_id (mgr w) = Some "a"
  ∧ queue (mgr w) = ["b"; "c"]
  ∧ queue (mgr (exec Skip w)) = ["b"; "c"]
  ∧ threads w3 !! 0%nat = Some (mkThread DEFAULT_SETTINGS (Waiting "b" 1%nat))
  ∧ current_video_id (mgr w3) = Some "b"
  ∧ queue (mgr w3) = ["c"].
Proof.
  intros w w3.
  destruct (skip_advances_to_next w 0%nat DEFAULT_SETTINGS "a" "b" ["c"] 0%nat
              (mkPopen (ffmpeg_argv "videos/a" (PStr "rtmp://example.com/live")
                          (PStr "your_stream_key") (PInt 2500) "1920x1080"
                          (PInt 30))
                       plays_well None)
              plays_well)
    as ((_ & Hm & _) & _ & (Hth & Hq & Hc & _)).
  - reflexivity.
  - reflexivity.
  - reflexivity.
  - reflexivity.
  - reflexivity.
  - reflexivity.
  - reflexivity.
  - reflexivity.
  - reflexivity.
  - split; [discriminate|]. split.
    { apply (proj1 (bool_decide_eq_true
                      (path_join VIDEOS_DIR "b" ∈ files (env w)))).
      reflexivity. }
    exists (PStr "rtmp://example.com/live"), (PStr "your_stream_key"),
      (PInt 2500), "1920x1080", (PInt 30).
    split_and!; reflexivity.
  - split_and!; [reflexivity|reflexivity| |exact Hth|exact Hc|exact Hq].
    change (queue (mgr (exec Skip w)) = queue (mgr w)). by rewrite Hm.
Defined.

(** * Further properties *)

(** ** What a step of the loop thread can and cannot do *)

Lemma py_remove_sublist v (q : list string) : py_remove v q `sublist_of` q.
Proof.
  induction q as [|y q IH]; simpl; [done|].
  case_bool_decide; [by apply sublist_cons|by apply sublist_skip].
Qed.

Lemma py_remove_NoDup v (q : list string) : NoDup q -> NoDup (py_remove v q).
Proof. intros. eapply sublist_NoDup; [done|apply py_remove_sublist]. Qed.

Lemma snoc_NoDup v (q : list string) : v ∉ q -> NoDup q -> NoDup (q ++ [v]).
Proof.
  intros Hv Hq. apply NoDup_app. split_and!; [done| |apply NoDup_singleton].
  intros x Hx Hx'. apply list_elem_of_singleton in Hx'. by subst.
Qed.

(** What every call preserves, and the three ways the start time can
    move. *)
Lemma perform_effect c w :
  let w' := perform c w in
  disk_writable (env w') = disk_writable (env w)
  ∧ (NoDup (queue (mgr w)) -> NoDup (queue (mgr w')))
  ∧ (disk_writable (env w) = true ->
     loaded (queue_file (env w)) = queue (mgr w) ->
     loaded (queue_file (env w')) = queue (mgr w'))
  ∧ (start_time (mgr w') = start_time (mgr w)
     ∨ start_time (mgr w') = None
     ∨ (start_time (mgr w) = None
        ∧ start_time (mgr w') = Some (clock (env w)))).
Proof.
  assert (Hwp : forall {A} (prog : M A),
             wp prog w (fun _ w' =>
               disk_writable (env w') = disk_writable (env w)
               ∧ (NoDup (queue (mgr w)) -> NoDup (queue (mgr w')))
               ∧ (disk_writable (env w) = true ->
                  loaded (queue_file (env w)) = queue (mgr w) ->
                  loaded (queue_file (env w')) = queue (mgr w'))
               ∧ (start_time (mgr w') = start_time (mgr w)
                  ∨ start_time (mgr w') = None
                  ∨ (start_time (mgr w) = None
                     ∧ start_time (mgr w') = Some (clock (env w))))) ->
             let w' := state_after prog w in
             disk_writable (env w') = disk_writable (env w)
             ∧ (NoDup (queue (mgr w)) -> NoDup (queue (mgr w')))
             ∧ (disk_writable (env w) = true ->
                loaded (queue_file (env w)) = queue (mgr w) ->
                loaded (queue_file (env w')) = queue (mgr w'))
             ∧ (start_time (mgr w') = start_time (mgr w)
                ∨ start_time (mgr w') = None
                ∨ (start_time (mgr w) = None
                   ∧ start_time (mgr w') = Some (clock (env w))))) by done.
  assert (Hstep : forall tid,
             let w' := thread_step tid w in
             disk_writable (env w') = disk_writable (env w)
             ∧ (NoDup (queue (mgr w)) -> NoDup (queue (mgr w')))
             ∧ (disk_writable (env w) = true ->
                loaded (queue_file (env w)) = queue (mgr w) ->
                loaded (queue_file (env w')) = queue (mgr w'))
             ∧ (start_time (mgr w') = start_time (mgr w)
                ∨ start_time (mgr w') = None
                ∨ (start_time (mgr w) = None
                   ∧ start_time (mgr w') = Some (clock (env w))))).
  { clear Hwp. intros tid.
    destruct (thread_step_cases tid w) as [->|(th & pc' & w1 & _ & Hrun & ->)].
    { cbv zeta. eauto. }
    pose proof (loop_step_effect (th_settings th) (th_pc th) w) as Heff.
    unfold wp in Heff. rewrite Hrun in Heff. cbn [fst snd] in Heff.
    destruct Heff as (_ & _ & _ & Hq & _ & _ & _ & Hd & Hst & Hsync).
    cbn [mgr env set_threads]. split_and!; try done.
    intros Hnd. destruct Hq as [->| ->]; [done|].
    destruct (queue (mgr w)) as [|x q]; [done|]. by apply NoDup_cons in Hnd as [_ ?]. }
  destruct c as [[| | |v|v|tid|p|dt|tid']|v| |s]; cbn [perform exec].
  all: try (apply Hwp; clear Hwp Hstep; open_world w; unfold_all;
            wp_auto; wcbv; simplify_eq; clean_bools;
            split_and!; eauto using py_remove_NoDup, snoc_NoDup;
            intros; congruence).
  - apply Hstep.
  - clear Hwp Hstep. unfold process_exits.
    destruct (procs (env w) !! p) as [pr|]; [|cbv zeta; eauto].
    destruct (returncode pr); cbv zeta; eauto.
  - destruct (thread_enter_cases tid' w)
      as [->|[(th & _ & _ & _ & ->)|(th & _ & _ & _ & ->)]];
      [cbv zeta; eauto|cbv zeta; cbn [mgr env set_threads]; eauto|apply Hstep].
Qed.

(** ** The queue across restarts *)

Lemma boot_queue e :
  queue (mgr (boot e)) = loaded (queue_file e)
  ∧ queue_file (env (boot e)) = queue_file e
  ∧ disk_writable (env (boot e)) = disk_writable e.
Proof. unfold boot. destruct e as [fs [[q|]|] sf d c ff ps tr]; done. Qed.

Lemma history_snoc cs c w : history (cs ++ [c]) w = perform c (history cs w).
Proof. unfold history. by rewrite foldl_snoc. Qed.

(** X1: on a disk that can be written, whatever has been called since the
    manager was constructed (requests, steps of the loop threads, process
    exits, settings and deletion endpoints), constructing the manager anew
    from the disk as it stands gives exactly the queue the running manager
    holds. *)
Theorem queue_survives_restart (e : Env) (cs : list call) :
  disk_writable e = true ->
  let w := history cs (boot e) in
  queue (mgr (boot (env w))) = queue (mgr w).
Proof.
  intros Hd w. subst w.
  enough (disk_writable (env (history cs (boot e))) = true
          ∧ loaded (queue_file (env (history cs (boot e))))
            = queue (mgr (history cs (boot e)))) as [_ H].
  { destruct (boot_queue (env (history cs (boot e)))) as (-> & _). done. }
  induction cs as [|c cs IH] using rev_ind.
  - change (history [] (boot e)) with (boot e).
    destruct (boot_queue e) as (-> & -> & ->). done.
  - rewrite history_snoc. destruct IH as [IHd IHs].
    destruct (perform_effect c (history cs (boot e))) as (Hd' & _ & Hs & _).
    split; [by rewrite Hd'|by apply Hs].
Qed.

(** X2: if the queue file the manager starts from holds no identifier twice
    (or is absent or unreadable), no sequence of calls ever brings a
    duplicate into the queue. *)
Theorem queue_never_duplicates (e : Env) (cs : list call) :
  NoDup (loaded (queue_file e)) ->
  NoDup (queue (mgr (history cs (boot e)))).
Proof.
  intros Hnd. induction cs as [|c cs IH] using rev_ind.
  - change (history [] (boot e)) with (boot e).
    by destruct (boot_queue e) as (-> & _).
  - rewrite history_snoc.
    by apply (perform_effect c (history cs (boot e))).
Qed.

(** X3: a call of any kind either leaves the start time of the session as it
    is, or clears it, or sets it to the current clock when none was
    recorded; a recorded start time is never replaced by another one, so the
    uptime of a running session is not restarted from video to video. *)
Theorem start_time_set_once (c : call) (w : World) :
  start_time (mgr (perform c w)) = start_time (mgr w)
  ∨ start_time (mgr (perform c w)) = None
  ∨ (start_time (mgr w) = None
     ∧ start_time (mgr (perform c w)) = Some (clock (env w))).
Proof. apply (perform_effect c w). Qed.

Lemma queue_survives_restart_witness :
  let e := sample_env ["videos/a"; "videos/b"; "videos/c"]
                      (fun _ => Some plays_well) in
  let w := history [Act (Enqueue "a"); Act (Enqueue "b"); Act (Enqueue "c");
                    Act Start; Act (Step 0%nat); DeleteVideo "c"] (boot e) in
  queue (mgr w) = ["b"] ∧ queue (mgr (boot (env w))) = ["b"].
Proof.
  intros e w. split; [reflexivity|].
  etransitivity; [exact (queue_survives_restart e _ eq_refl)|reflexivity].
Defined.

Lemma queue_never_duplicates_witness :
  let e := set_queue_file (Some (Some ["a"; "b"]))
             (sample_env ["videos/a"; "videos/b"] (fun _ => Some plays_well)) in
  NoDup (queue (mgr (history [Act (Enqueue "b"); Act (Dequeue "a");
                              Act (Enqueue "a")] (boot e)))).
Proof.
  intros e. apply queue_never_duplicates.
  apply (bool_decide_unpack (NoDup (loaded (queue_file e)))).
  vm_compute. exact I.
Defined.

(** ** The queue store when the disk fails, and its two endpoints *)




(** X5: [POST /queue/add] looks for the path [VIDEOS_DIR / video_id] as
    pathlib forms it: an absolute identifier replaces the directory, the
    empty identifier names the directory itself, [./] and doubled slashes
    are dropped.  When nothing exists at that path the request answers 404
    and changes nothing; otherwise it answers with the queue, which then
    holds the identifier as it was given: appended at the back if it was not
    queued, the queue as it was if it already was. *)
Theorem add_endpoint (v : string) (w : World) :
  (path_join VIDEOS_DIR v ∉ files (env w) ->
   Api.add_to_queue v w = (Raise (HTTPException 404 "Video not found"), w))
  ∧ (path_join VIDEOS_DIR v ∈ files (env w) ->
     exists w',
       Api.add_to_queue v w = (Ok (queue (mgr w')), w')
       ∧ queue (mgr w')
         = (if bool_decide (v ∈ queue (mgr w)) then queue (mgr w)
            else queue (mgr w) ++ [v])
       ∧ v ∈ queue (mgr w')).
Proof.
  split; intros Hf.
  - apply wp_eq. unfold Api.add_to_queue, path_exists.
    repeat wp_step. rewrite bool_decide_eq_false_2 by done. cbn [negb].
    wp_step. reflexivity.
  - enough (wp (Api.add_to_queue v) w (fun r w' =>
              r = Ok (queue (mgr w'))
              ∧ queue (mgr w')
                = (if bool_decide (v ∈ queue (mgr w)) then queue (mgr w)
                   else queue (mgr w) ++ [v])
              ∧ v ∈ queue (mgr w'))) as H.
    { apply wp_inv in H as (r & w' & Hrun & -> & ? & ?). by exists w'. }
    unfold Api.add_to_queue, path_exists, SM.add_to_queue.
    repeat wp_step. rewrite bool_decide_eq_true_2 by done. cbn [negb].
    repeat wp_step'.
    destruct (bool_decide (v ∈ queue (mgr w))) eqn:Hin; repeat wp_step'.
    + wsimpl. by apply bool_decide_eq_true in Hin.
    + wsimpl. rewrite saved_mgr. wsimpl. split_and!; try done. set_solver.
Qed.

Lemma add_endpoint_witness :
  let w := sample_world ["videos"; "videos/a"; "videos/b"; "/etc/passwd"]
                        (fun _ => None) ["a"] in
  Api.add_to_queue "c" w = (Raise (HTTPException 404 "Video not found"), w)
  ∧ fst (Api.add_to_queue "b" w) = Ok ["a"; "b"]
  ∧ fst (Api.add_to_queue "./b" w) = Ok ["a"; "./b"]
  ∧ fst (Api.add_to_queue "" w) = Ok ["a"; ""]
  ∧ fst (Api.add_to_queue "/etc/passwd" w) = Ok ["a"; "/etc/passwd"].
Proof.
  intros w.
  assert (Hfound : forall v q,
            bool_decide (path_join VIDEOS_DIR v ∈ files (env w)) = true ->
            (if bool_decide (v ∈ queue (mgr w)) then queue (mgr w)
             else queue (mgr w) ++ [v]) = q ->
            fst (Api.add_to_queue v w) = Ok q).
  { intros v q Hf Hq.
    destruct (proj2 (add_endpoint v w)) as (w' & Hrun & Hq' & _).
    - by apply bool_decide_eq_true in Hf.
    - rewrite Hrun. cbn [fst]. by rewrite Hq', Hq. }
  split_and!.
  - apply (proj1 (add_endpoint "c" w)).
    apply (proj1 (bool_decide_eq_false
                    (path_join VIDEOS_DIR "c" ∈ files (env w)))).
    reflexivity.
  - apply Hfound; reflexivity.
  - apply Hfound; reflexivity.
  - apply Hfound; reflexivity.
  - apply Hfound; reflexivity.
Defined.

Lemma py_remove_length v (q : list string) :
  v ∈ q -> (length (py_remove v q) + 1 = length q)%nat.
Proof.
  induction q as [|y q IH]; simpl; [by intros ?%elem_of_nil|].
  intros Hin. case_bool_decide; [lia|].
  apply elem_of_cons in Hin as [?|Hin]; [done|]. simpl. by rewrite IH.
Qed.

(** [list.remove(x)] takes out the first occurrence. *)
Lemma py_remove_first v (q : list string) :
  v ∈ q ->
  exists before after,
    q = before ++ v :: after ∧ (v ∉ before) ∧ py_remove v q = before ++ after.
Proof.
  induction q as [|y q IH]; simpl; [by intros ?%elem_of_nil|].
  intros Hin. case_bool_decide as Hy.
  - subst y. exists [], q. split_and!; [done|apply not_elem_of_nil|done].
  - apply elem_of_cons in Hin as [?|Hin]; [done|].
    destruct (IH Hin) as (l1 & l2 & -> & Hn & ->).
    exists (y :: l1), l2. split_and!; [done| |done].
    apply not_elem_of_cons. split; [done|done].
Qed.

(** X6: [DELETE /queue/remove/{id}] never fails and answers with the queue.
    An identifier that is queued leaves the place of its first occurrence:
    the entries before it and after it stay, in their order (so the queue is
    one shorter); should the queue file have brought in duplicates, the
    later occurrences stay too, and the identifier is gone for good exactly
    when the queue had no duplicates.  For an identifier that is not queued
    nothing happens at all, not even a write. *)
Theorem remove_endpoint (v : string) (w : World) :
  exists w',
    Api.remove_from_queue v w = (Ok (queue (mgr w')), w')
    ∧ queue (mgr w') `sublist_of` queue (mgr w)
    ∧ (v ∈ queue (mgr w) ->
       (length (queue (mgr w')) + 1 = length (queue (mgr w)))%nat
       ∧ exists before after,
           queue (mgr w) = before ++ v :: after
           ∧ (v ∉ before)
           ∧ queue (mgr w') = before ++ after)
    ∧ (v ∉ queue (mgr w) -> w' = w)
    ∧ (NoDup (queue (mgr w)) -> v ∉ queue (mgr w')).
Proof.
  enough (wp (Api.remove_from_queue v) w (fun r w' =>
            r = Ok (queue (mgr w'))
            ∧ (queue (mgr w') = py_remove v (queue (mgr w)))
            ∧ (v ∉ queue (mgr w) -> w' = w))) as H.
  { apply wp_inv in H as (r & w' & Hrun & -> & Hq & Hn). exists w'.
    split_and!; [done|rewrite Hq; apply py_remove_sublist| |done|].
    - intros Hin. split; [rewrite Hq; by apply py_remove_length|].
      destruct (py_remove_first v _ Hin) as (l1 & l2 & H1 & H2 & H3).
      exists l1, l2. by rewrite Hq.
    - intros Hnd. rewrite Hq, py_remove_filter by done.
      intros [? _]%list_elem_of_filter. done. }
  unfold Api.remove_from_queue, SM.remove_from_queue.
  repeat wp_step'.
  destruct (bool_decide (v ∈ queue (mgr w))) eqn:Hin; repeat wp_step'.
  - wsimpl. rewrite saved_mgr. wsimpl. split_and!; try done.
    by apply bool_decide_eq_true in Hin.
  - apply bool_decide_eq_false in Hin. by rewrite py_remove_notin.
Qed.

Lemma remove_endpoint_witness :
  let w := upd_mgr (set_queue ["a"; "b"; "c"; "b"])
             (sample_world [] (fun _ => None) []) in
  fst (Api.remove_from_queue "b" w) = Ok ["a"; "c"; "b"].
Proof.
  intros w.
  destruct (remove_endpoint "b" w) as (w' & Hrun & _ & Hin & _).
  rewrite Hrun. cbn [fst]. f_equal.
  destruct Hin as (_ & l1 & l2 & Hq & Hn & ->).
  { apply (bool_decide_unpack ("b" ∈ queue (mgr w))). vm_compute. exact I. }
  change (queue (mgr w)) with (["a"] ++ "b" :: ["c"; "b"]) in Hq.
  destruct l1 as [|x1 [|x2 l1]].
  - by simplify_eq.
  - by simplify_eq.
  - simplify_eq. exfalso. apply Hn. set_solver.
Defined.

(** ** More on the loop *)

(** X7: a step of a loop thread, whole or the loop test alone, never adds
    to the queue: the queue is afterwards what it was, or that without its
    first entry.  It creates no thread and leaves every other thread as it
    was; of the stepping thread only the position changes (possibly to the
    end of the loop), its settings stay.  It does not change the stop
    request, and it touches neither the files nor the settings on disk. *)
Theorem loop_only_consumes (a : action) (tid : nat) (w : World) :
  a = Step tid ∨ a = Enter tid ->
  let w' := exec a w in
  (queue (mgr w') = queue (mgr w) ∨ queue (mgr w') = tail (queue (mgr w)))
  ∧ length (threads w') = length (threads w)
  ∧ (forall t, t ≠ tid -> threads w' !! t = threads w !! t)
  ∧ th_settings <$> threads w' !! tid = th_settings <$> threads w !! tid
  ∧ should_stop (mgr w') = should_stop (mgr w)
  ∧ files (env w') = files (env w)
  ∧ settings_file (env w') = settings_file (env w).
Proof.
  assert (Hins : forall (ths : list Thread) th pc',
            ths !! tid = Some th ->
            length (<[tid := mkThread (th_settings th) pc']> ths) = length ths
            ∧ (forall t, t ≠ tid ->
                 <[tid := mkThread (th_settings th) pc']> ths !! t = ths !! t)
            ∧ th_settings <$> <[tid := mkThread (th_settings th) pc']> ths !! tid
              = th_settings <$> ths !! tid).
  { intros ths th pc' Hth. split_and!.
    - apply length_insert.
    - intros t Hne. by apply list_lookup_insert_ne.
    - rewrite list_lookup_insert_eq by by eapply lookup_lt_Some.
      by rewrite Hth. }
  assert (Hstep : let w' := thread_step tid w in
            (queue (mgr w') = queue (mgr w) ∨ queue (mgr w') = tail (queue (mgr w)))
            ∧ length (threads w') = length (threads w)
            ∧ (forall t, t ≠ tid -> threads w' !! t = threads w !! t)
            ∧ th_settings <$> threads w' !! tid = th_settings <$> threads w !! tid
            ∧ should_stop (mgr w') = should_stop (mgr w)
            ∧ files (env w') = files (env w)
            ∧ settings_file (env w') = settings_file (env w)).
  { destruct (thread_step_cases tid w) as [->|(th & pc' & w1 & Hth & Hrun & ->)].
    { cbv zeta. split_and!; auto. }
    pose proof (loop_step_effect (th_settings th) (th_pc th) w) as Heff.
    unfold wp in Heff. rewrite Hrun in Heff. cbn [fst snd] in Heff.
    destruct Heff as (Ht & Hs & _ & Hq & Hf & _ & Hsf & _).
    cbv zeta. cbn [mgr env threads set_threads]. rewrite Ht.
    destruct (Hins (threads w) th pc' Hth) as (H1 & H2 & H3).
    split_and!; done. }
  intros [-> | ->]; cbn [exec]; [exact Hstep|].
  destruct (thread_enter_cases tid w)
    as [->|[(th & Hth & _ & _ & ->)|(th & _ & _ & _ & ->)]];
    [cbv zeta; split_and!; auto| |exact Hstep].
  cbv zeta. cbn [mgr env threads set_threads].
  destruct (Hins (threads w) th Entered Hth) as (H1 & H2 & H3).
  split_and!; auto.
Qed.

Lemma loop_only_consumes_witness :
  let w := exec Start (sample_world ["videos/a"] (fun _ => Some plays_well)
                                    ["a"; "b"]) in
  queue (mgr w) = ["a"; "b"]
  ∧ queue (mgr (exec (Step 0%nat) w)) = ["b"]
  ∧ length (threads (exec (Step 0%nat) w)) = 1%nat
  ∧ queue (mgr (exec (Enter 0%nat) w)) = ["a"; "b"].
Proof.
  intros w.
  destruct (loop_only_consumes (Step 0%nat) 0%nat w) as (_ & Hl & _);
    [by left|].
  destruct (loop_only_consumes (Enter 0%nat) 0%nat w) as (Hq & _);
    [by right|].
  split_and!; [reflexivity|reflexivity|exact Hl|].
  destruct Hq as [Hq|Hq]; [exact Hq|reflexivity].
Defined.

(** X8: an entry that is the empty string ends the session like an empty
    queue does ([if not video_id]): it is consumed, "Queue is empty" is
    printed, the session fields are reset and the loop is over, while the
    entries behind it stay in the queue unplayed. *)
Theorem empty_identifier_ends_session
        (settings : Settings) (w : World) (rest : list string) :
  should_stop (mgr w) = false ->
  queue (mgr w) = "" :: rest ->
  exists w',
    SM.loop_step settings LoopHead w = (Ok Exited, w')
    ∧ queue (mgr w') = rest
    ∧ is_active (mgr w') = false
    ∧ current_video_id (mgr w') = None
    ∧ start_time (mgr w') = None
    ∧ procs (env w') = procs (env w)
    ∧ last (trace (env w')) = Some (Printed "Queue is empty. Stopping stream.").
Proof.
  intros Hstop Hq.
  enough (wp (SM.loop_step settings LoopHead) w (fun r w' =>
            r = Ok Exited
            ∧ queue (mgr w') = rest
            ∧ is_active (mgr w') = false
            ∧ current_video_id (mgr w') = None
            ∧ start_time (mgr w') = None
            ∧ procs (env w') = procs (env w)
            ∧ last (trace (env w'))
              = Some (Printed "Queue is empty. Stopping stream."))) as H.
  { apply wp_inv in H as (r & w' & Hrun & -> & H). by exists w'. }
  cbn [SM.loop_step]. unfold SM.loop_from_head, SM.loop_body, SM.get_next_video, SM.loop_cleanup.
  repeat first [wp_step' | rewrite Hstop | rewrite Hq].
  wsimpl. rewrite saved_mgr, saved_procs, last_snoc. done.
Qed.

Lemma empty_identifier_ends_session_witness :
  let w := upd_mgr (set_queue [""; "a"])
             (exec Start (sample_world ["videos/a"] (fun _ => Some plays_well)
                                       ["a"])) in
  let w' := exec (Step 0%nat) w in
  th_pc <$> threads w' !! 0%nat = Some Exited ∧ queue (mgr w') = ["a"].
Proof.
  intros w w'.
  destruct (empty_identifier_ends_session DEFAULT_SETTINGS w ["a"])
    as (w1 & Hrun & Hq & _); [reflexivity|reflexivity|].
  assert (Hw' : w' = set_threads [mkThread DEFAULT_SETTINGS Exited] w1).
  { subst w'. cbn [exec].
    rewrite (thread_step_run 0 w (mkThread DEFAULT_SETTINGS LoopHead)
               Exited w1 eq_refl Hrun).
    f_equal. assert (threads w1 = threads w) as ->; [|reflexivity].
    pose proof (loop_step_effect DEFAULT_SETTINGS LoopHead w) as (Ht & _).
    by rewrite Hrun in Ht. }
  rewrite Hw'. split; [reflexivity|exact Hq].
Defined.

(** X9: when [wait()] returns and the manager still holds the process, the
    loop goes back to its test without pausing, whatever the exit status:
    the process handle and the current video are cleared, the session stays
    as active as it was, the queue and the clock are untouched, and the
    one thing a non-zero status adds is the line "FFmpeg error: ..." with
    the text of stderr, printed unless a stop has been requested. *)
Theorem exit_status_handling
        (settings : Settings) (v : string) (p : pid) (pr : Popen) (code : Z)
        (w : World) :
  process (mgr w) = Some p ->
  procs (env w) !! p = Some pr ->
  returncode pr = Some code ->
  exists w',
    SM.loop_step settings (Waiting v p) w = (Ok LoopHead, w')
    ∧ mgr w' = set_current_video_id None (set_process None (mgr w))
    ∧ clock (env w') = clock (env w)
    ∧ procs (env w') = procs (env w)
    ∧ trace (env w')
      = trace (env w)
        ++ (if bool_decide (code ≠ 0) && negb (should_stop (mgr w))
            then [Printed ("FFmpeg error: " +:+ stderr_text (behaviour pr))]
            else []).
Proof.
  intros Hp Hpr Hrc. exists (resumed p w).
  split.
  { apply loop_wait_resumes; [done|]. rewrite Hpr. cbn. rewrite Hrc. by eexists. }
  destruct (resumed_frame p w) as (Hm & _ & _ & _ & Hps & Hc).
  split_and!; try done.
  unfold resumed. rewrite Hpr. cbn [mbind option_bind]. rewrite Hrc.
  assert (bool_decide (Some code ≠ Some 0) = bool_decide (code ≠ 0)) as ->.
  { apply bool_decide_ext. split; congruence. }
  destruct (bool_decide (code ≠ 0) && negb (should_stop (mgr w))); wsimpl.
  - rewrite Hpr. done.
  - by rewrite app_nil_r.
Qed.

Lemma exit_status_handling_witness :
  let w0 := run [Start; Step 0%nat]
                (sample_world ["videos/a"]
                   (fun _ => Some (mkBehaviour 1 "Connection refused" false false false))
                   ["a"]) in
  let w := exec (ProcessExits 0%nat) w0 in
  let w' := state_after (SM.loop_step DEFAULT_SETTINGS (Waiting "a" 0%nat)) w in
  is_active (mgr w') = true
  ∧ trace (env w') = trace (env w) ++ [Printed "FFmpeg error: Connection refused"].
Proof.
  intros w0 w w'.
  destruct (exit_status_handling DEFAULT_SETTINGS "a" 0%nat
              (mkPopen (ffmpeg_argv "videos/a" (PStr "rtmp://example.com/live")
                          (PStr "your_stream_key") (PInt 2500) "1920x1080"
                          (PInt 30))
                       (mkBehaviour 1 "Connection refused" false false false)
                       (Some 1))
              1 w)
    as (w1 & Hrun & Hm & _ & _ & Ht); [reflexivity|reflexivity|reflexivity|].
  assert (w' = w1) as -> by (subst w'; unfold state_after; by rewrite Hrun).
  split; [by rewrite Hm|exact Ht].
Defined.





(** The pause is reached when the settings on disk hold the five keys but a
    bitrate that cannot be doubled, such as null: line 174 raises outside
    the [try] of [_stream_video]. *)
Example null_bitrate_pause :
  let settings := <["bitrate" := PNone]> DEFAULT_SETTINGS in
  let w0 := set_threads [mkThread settings LoopHead]
              (sample_world ["videos/a"] (fun _ => Some plays_well) ["a"]) in
  let w1 := exec (Step 0%nat) w0 in
  th_pc <$> threads w1 !! 0%nat = Some Sleeping
  ∧ trace (env w1)
    = trace (env w0)
      ++ [QueueSaved [];
          Printed "Error streaming a: unsupported operand type(s) for *: 'NoneType' and 'int'"].
Proof. vm_compute. split_and!; reflexivity. Qed.

(** ** More on stopping and skipping *)

Lemma loop_wait_after_stop settings v p w :
  process (mgr w) = None ->
  is_Some (procs (env w) !! p ≫= returncode) ->
  SM.loop_step settings (Waiting v p) w
  = (Ok LoopHead,
     upd_mgr (set_current_video_id None)
       (upd_env (fun e => set_trace
          (trace e ++ [Printed "Exception during streaming: 'NoneType' object has no attribute 'returncode'"]) e) w)).
Proof.
  intros Hp Hex. apply wp_eq. cbn [SM.loop_step].
  unfold SM.has_exited. do 2 wp_step'.
  rewrite bool_decide_eq_true_2 by done.
  unfold SM.loop_from_wait, SM._stream_video_resume, SM.stream_video_handlers,
    SM.after_wait, SM.self_process.
  repeat first [wp_step' | rewrite Hp].
  destruct w as [[pp a c s q th st] e t]. cbn in Hp. subst pp. reflexivity.
Qed.

Lemma loop_head_stop settings w :
  should_stop (mgr w) = true ->
  SM.loop_step settings LoopHead w
  = (Ok Exited,
     upd_mgr (set_start_time None)
       (upd_mgr (set_current_video_id None) (upd_mgr (set_is_active false) w))).
Proof.
  intros Hs. apply wp_eq. cbn [SM.loop_step].
  unfold SM.loop_from_head, SM.loop_body, SM.loop_cleanup.
  repeat first [wp_step' | rewrite Hs]. reflexivity.
Qed.

(** [stop_stream] is its two halves run one after the other. *)
Lemma stop_stream_halves w :
  Api.stop_stream w
  = bind Api.stop_stream_begin
         (fun r => match r with
                   | inl msg => ret msg
                   | inr p => Api.stop_stream_end p
                   end) w.
Proof.
  unfold Api.stop_stream, Api.stop_stream_begin, Api.stop_stream_end,
    SM.stop_stream, SM.stop_stream_begin, SM.stop_stream_end,
    SM.terminate_and_wait, SM.stop_except, SM.stop_reset, SM.self_process,
    with_lock.
  unfold try_except, try_finally, bind, get, put, ret, raise.
  destruct w as [[pr a c s q th st] e ths]. wcbv.
  destruct a; cbn [negb]; [|reflexivity].
  destruct pr as [p|]; [|reflexivity].
  rewrite bool_decide_eq_true_2 by (by eexists).
  match goal with |- context [SM.terminate p ?w0] =>
    destruct (SM.terminate p w0) as [[[]|e0] [[pr1 a1 c1 s1 q1 th1 st1] e1 ths1]]
  end; wcbv.
  - destruct pr1 as [p1|]; [|reflexivity].
    match goal with |- context [SM.wait_timeout p1 5 ?w0] =>
      destruct (SM.wait_timeout p1 5 w0)
        as [[[]|e0] [[pr2 a2 c2 s2 q2 th2 st2] e2 ths2]]
    end; wcbv; [reflexivity|].
    destruct e0; reflexivity.
  - destruct e0; try reflexivity.
    destruct pr1 as [p1|]; [|reflexivity].
    match goal with |- context [SM.kill p1 ?w0] =>
      destruct (SM.kill p1 w0) as [[[]|e0] [[pr3 a3 c3 s3 q3 th3 st3] e3 ths3]]
    end; reflexivity.
Qed.

Ltac unfold_stop :=
  unfold Api.stop_stream_begin, Api.stop_stream_end, SM.stop_stream_begin,
    SM.stop_stream_end, SM.stop_except, SM.stop_reset.

(** The first half of a stop request on a live process that takes the
    signal: [should_stop] is set, SIGTERM is sent, and the request waits. *)
Lemma stop_begin_post w p pr :
  is_active (mgr w) = true ->
  process (mgr w) = Some p ->
  procs (env w) !! p = Some pr ->
  returncode pr = None ->
  terminate_fails (behaviour pr) = false ->
  wp Api.stop_stream_begin w (fun r w' =>
    r = Ok (inr p)
    ∧ mgr w' = set_should_stop true (mgr w)
    ∧ threads w' = threads w
    ∧ trace (env w') = trace (env w) ++ [Sigterm p]
    ∧ procs (env w')
      = if ignores_sigterm (behaviour pr) then procs (env w)
        else alter (fun pr => mkPopen (args pr) (behaviour pr) (Some (-15))) p
                   (procs (env w))).
Proof.
  intros Ha Hp Hpr Hrc Ht. open_world w. cbn in Ha, Hp, Hpr. subst.
  unfold_stop. unfold_all.
  wp_auto; wcbv; clean_bools; simplify_eq; try congruence; try done.
  all: try (match goal with H : ¬ is_Some (Some _) |- _ => destruct H; by eexists end).
  all: match goal with H : ignores_sigterm _ = _ |- _ => by rewrite H end.
Qed.

(** The second half when the process has exited in the meantime. *)
Lemma stop_end_exited w p :
  is_Some (procs (env w) !! p ≫= returncode) ->
  wp (Api.stop_stream_end p) w (fun r w' =>
    r = Ok "Stream stopped successfully"
    ∧ mgr w' = mkSM None false None None (queue (mgr w))
                    (stream_thread (mgr w)) (should_stop (mgr w))
    ∧ threads w' = threads w
    ∧ env w' = env w).
Proof.
  intros [c Hc]. open_world w. cbn in Hc.
  unfold_stop. unfold_all.
  repeat first [wp_step | progress wcbv | rewrite Hc]. done.
Qed.

(** The second half when the process is still alive after the 5 time units
    and can be killed. *)
Lemma stop_end_kills w p pr :
  process (mgr w) = Some p ->
  procs (env w) !! p = Some pr ->
  returncode pr = None ->
  kill_fails (behaviour pr) = false ->
  wp (Api.stop_stream_end p) w (fun r w' =>
    r = Ok "Stream stopped successfully"
    ∧ mgr w' = mkSM None false None None (queue (mgr w))
                    (stream_thread (mgr w)) (should_stop (mgr w))
    ∧ threads w' = threads w
    ∧ trace (env w') = trace (env w) ++ [Waited p 5; Sigkill p]
    ∧ procs (env w')
      = alter (fun pr => mkPopen (args pr) (behaviour pr) (Some (-9))) p
              (procs (env w))).
Proof.
  intros Hp Hpr Hrc Hk. open_world w. cbn in Hp, Hpr. subst.
  unfold_stop. unfold_all.
  repeat first [wp_step | progress wcbv
                | rewrite Hpr; cbn [mbind option_bind]; rewrite ?Hrc, ?Hk].
  rewrite <- app_assoc. done.
Qed.

(** A thread whose process is still running stays in [wait()]. *)
Lemma loop_wait_blocked settings v p w :
  procs (env w) !! p ≫= returncode = None ->
  SM.loop_step settings (Waiting v p) w = (Ok (Waiting v p), w).
Proof.
  intros Hn. cbn [SM.loop_step]. unfold SM.has_exited, bind, ask, ret.
  rewrite Hn. rewrite bool_decide_eq_false_2 by (by intros [? ?]). done.
Qed.

Lemma resumed_stopped p w :
  should_stop (mgr w) = true ->
  resumed p w = upd_mgr (set_current_video_id None) (upd_mgr (set_process None) w).
Proof. intros Hs. unfold resumed. by rewrite Hs, andb_false_r. Qed.

(** X11: a stop request during playback ends the loop and keeps the queue.
    The loop is blocked in [wait()] on a process that can be signalled; the
    request is followed through its two halves, the loop thread being given
    a step while the request waits and two steps after it.
    If SIGTERM ends the process, the thread leaves [wait()] while the request
    still waits: it finds [self.process] in place and [should_stop] set,
    prints nothing and is back at the loop test; the request then finishes
    with success.  If the process ignores SIGTERM, the thread stays blocked,
    the request kills the process after the 5 time units, clears
    [self.process] and finishes with success; the thread then leaves
    [wait()], finds [self.process] cleared and logs the AttributeError.
    Either way the thread sees the stop request at its next test and leaves
    the loop: no entry has been taken from the queue, no further process
    has been started, the session is inactive and holds no process. *)
Theorem stop_ends_the_loop
        (w : World) (tid : nat) (settings : Settings) (a : string)
        (p : pid) (pr : Popen) :
  threads w !! tid = Some (mkThread settings (Waiting a p)) ->
  is_active (mgr w) = true ->
  process (mgr w) = Some p ->
  procs (env w) !! p = Some pr ->
  returncode pr = None ->
  terminate_fails (behaviour pr) = false ->
  (ignores_sigterm (behaviour pr) = true -> kill_fails (behaviour pr) = false) ->
  let w1 := state_after Api.stop_stream_begin w in
  let w2 := exec (Step tid) w1 in
  let w3 := state_after (Api.stop_stream_end p) w2 in
  let w4 := run [Step tid; Step tid] w3 in
  (fst (Api.stop_stream_begin w) = Ok (inr p)
   ∧ fst (Api.stop_stream_end p w2) = Ok "Stream stopped successfully")
  ∧ (threads w4 !! tid = Some (mkThread settings Exited)
     ∧ mgr w4 = mkSM None false None None (queue (mgr w))
                     (stream_thread (mgr w)) true
     ∧ length (procs (env w4)) = length (procs (env w))
     ∧ is_Some (procs (env w4) !! p ≫= returncode))
  ∧ (ignores_sigterm (behaviour pr) = false ->
     threads w2 !! tid = Some (mkThread settings LoopHead)
     ∧ trace (env w4) = trace (env w) ++ [Sigterm p])
  ∧ (ignores_sigterm (behaviour pr) = true ->
     threads w2 !! tid = Some (mkThread settings (Waiting a p))
     ∧ trace (env w4)
       = trace (env w)
         ++ [Sigterm p; Waited p 5; Sigkill p;
             Printed "Exception during streaming: 'NoneType' object has no attribute 'returncode'"]).
Proof.
  intros Hth Ha Hp Hpr Hrc Hterm Hkill w1 w2 w3 w4.
  subst w4 w3 w2 w1. unfold run. cbn [foldl exec]. unfold state_after.
  (* the first half of the request *)
  pose proof (stop_begin_post w p pr Ha Hp Hpr Hrc Hterm) as Hb.
  unfold wp in Hb.
  destruct (Api.stop_stream_begin w) as [r1 w1]. cbn [fst snd] in *.
  destruct Hb as (-> & Hm1 & Ht1 & Htr1 & Hp1).
  assert (Hth1 : threads w1 !! tid = Some (mkThread settings (Waiting a p)))
    by by rewrite Ht1.
  assert (Hpp1 : process (mgr w1) = Some p) by by rewrite Hm1.
  assert (Hs1 : should_stop (mgr w1) = true) by by rewrite Hm1.
  destruct (ignores_sigterm (behaviour pr)) eqn:Hig.
  - (* the process ignores SIGTERM *)
    specialize (Hkill eq_refl).
    assert (Hlk1 : procs (env w1) !! p = Some pr) by by rewrite Hp1.
    (* the thread stays blocked *)
    assert (Hrun2 : SM.loop_step settings (Waiting a p) w1 = (Ok (Waiting a p), w1)).
    { apply loop_wait_blocked. by rewrite Hlk1; cbn; rewrite Hrc. }
    destruct (thread_step_at tid w1 settings _ _ w1 Hth1 Hrun2 eq_refl)
      as [Hstep2 Hth2].
    assert (Hw2 : thread_step tid w1 = w1).
    { rewrite Hstep2, list_insert_id by done. by destruct w1. }
    rewrite Hw2 in *. clear Hstep2 Hth2 Hw2.
    (* the second half of the request kills the process *)
    pose proof (stop_end_kills w1 p pr Hpp1 Hlk1 Hrc Hkill) as He.
    unfold wp in He.
    destruct (Api.stop_stream_end p w1) as [r3 w3]. cbn [fst snd] in *.
    destruct He as (-> & Hm3 & Ht3 & Htr3 & Hp3).
    assert (Hth3 : threads w3 !! tid = Some (mkThread settings (Waiting a p)))
      by by rewrite Ht3.
    assert (Hex3 : is_Some (procs (env w3) !! p ≫= returncode)).
    { rewrite Hp3, list_lookup_alter_eq, Hlk1. by eexists. }
    (* the thread leaves [wait()] *)
    assert (Hn3 : process (mgr w3) = None) by by rewrite Hm3.
    pose proof (loop_wait_after_stop settings a p w3 Hn3 Hex3) as Hrun4.
    set (u4 := upd_mgr _ (upd_env _ w3)) in Hrun4.
    destruct (thread_step_at tid w3 settings _ _ u4 Hth3 Hrun4 eq_refl)
      as [Hstep4 Hth4].
    set (w4 := thread_step tid w3) in *.
    assert (Hw4 : mgr w4 = mgr u4 ∧ env w4 = env u4) by by rewrite Hstep4.
    destruct Hw4 as [Hw4m Hw4e].
    (* and then the loop *)
    assert (Hs4 : should_stop (mgr w4) = true).
    { rewrite Hw4m. subst u4. wsimpl. by rewrite Hm3, Hm1. }
    pose proof (loop_head_stop settings w4 Hs4) as Hrun5.
    set (u5 := upd_mgr _ _) in Hrun5.
    destruct (thread_step_at tid w4 settings _ _ u5 Hth4 Hrun5 eq_refl)
      as [Hstep5 Hth5].
    split_and!; try done.
    + rewrite Hstep5. cbn [mgr set_threads]. subst u5. wsimpl.
      rewrite Hw4m. subst u4. wsimpl. rewrite Hm3, Hm1. done.
    + rewrite Hstep5. cbn [env set_threads]. subst u5. wsimpl.
      rewrite Hw4e. subst u4. wsimpl. by rewrite Hp3, length_alter, Hp1.
    + rewrite Hstep5. cbn [env set_threads]. subst u5. wsimpl.
      rewrite Hw4e. subst u4. wsimpl. done.
    + intros _. split; [done|].
      rewrite Hstep5. cbn [env set_threads]. subst u5. wsimpl.
      rewrite Hw4e. subst u4. wsimpl. rewrite Htr3, Htr1.
      by rewrite <- !app_assoc.
  - (* SIGTERM ends the process *)
    assert (Hlk1 : procs (env w1) !! p
                   = Some (mkPopen (args pr) (behaviour pr) (Some (-15)))).
    { rewrite Hp1, list_lookup_alter_eq, Hpr. done. }
    assert (Hex1 : is_Some (procs (env w1) !! p ≫= returncode)).
    { rewrite Hlk1. by eexists. }
    (* the thread leaves [wait()] while the request waits *)
    pose proof (loop_wait_resumes settings a p w1 Hpp1 Hex1) as Hrun2.
    rewrite (resumed_stopped p w1 Hs1) in Hrun2.
    set (u2 := upd_mgr _ (upd_mgr _ w1)) in Hrun2.
    destruct (thread_step_at tid w1 settings _ _ u2 Hth1 Hrun2 eq_refl)
      as [Hstep2 Hth2].
    set (w2 := thread_step tid w1) in *.
    assert (Hw2 : mgr w2 = mgr u2 ∧ env w2 = env w1) by by rewrite Hstep2.
    destruct Hw2 as [Hw2m Hw2e].
    (* the second half of the request *)
    assert (Hex2 : is_Some (procs (env w2) !! p ≫= returncode))
      by by rewrite Hw2e.
    pose proof (stop_end_exited w2 p Hex2) as He.
    unfold wp in He.
    destruct (Api.stop_stream_end p w2) as [r3 w3]. cbn [fst snd] in *.
    destruct He as (-> & Hm3 & Ht3 & He3).
    assert (Hth3 : threads w3 !! tid = Some (mkThread settings LoopHead))
      by by rewrite Ht3.
    (* the thread sees the stop request *)
    assert (Hs3 : should_stop (mgr w3) = true).
    { rewrite Hm3. cbn [should_stop]. rewrite Hw2m. subst u2. wsimpl. done. }
    pose proof (loop_head_stop settings w3 Hs3) as Hrun4.
    set (u4 := upd_mgr _ _) in Hrun4.
    destruct (thread_step_at tid w3 settings _ _ u4 Hth3 Hrun4 eq_refl)
      as [Hstep4 Hth4].
    set (w4 := thread_step tid w3) in *.
    assert (Hrun5 : SM.loop_step settings Exited w4 = (Ok Exited, w4)) by done.
    destruct (thread_step_at tid w4 settings _ _ w4 Hth4 Hrun5 eq_refl)
      as [Hstep5 Hth5].
    assert (Hw5 : thread_step tid w4 = w4).
    { rewrite Hstep5, list_insert_id by done. by destruct w4. }
    rewrite Hw5.
    assert (Hw4 : mgr w4 = mgr u4 ∧ env w4 = env w3) by by rewrite Hstep4.
    destruct Hw4 as [Hw4m Hw4e].
    split_and!; try done.
    + rewrite Hw4m. subst u4. wsimpl. rewrite Hm3. cbn.
      rewrite Hw2m. subst u2. wsimpl. by rewrite Hm1.
    + by rewrite Hw4e, He3, Hw2e, Hp1, length_alter.
    + by rewrite Hw4e, He3, Hw2e.
    + intros _. split; [done|]. by rewrite Hw4e, He3, Hw2e.
Qed.

Lemma stop_ends_the_loop_witness :
  let w := run [Start; Step 0%nat]
               (sample_world ["videos/a"; "videos/b"]
                             (fun _ => Some plays_well) ["a"; "b"]) in
  let w1 := state_after Api.stop_stream_begin w in
  let w2 := exec (Step 0%nat) w1 in
  let w3 := state_after (Api.stop_stream_end 0%nat) w2 in
  let w4 := run [Step 0%nat; Step 0%nat] w3 in
  threads w4 !! 0%nat = Some (mkThread DEFAULT_SETTINGS Exited)
  ∧ queue (mgr w4) = ["b"]
  ∧ is_active (mgr w4) = false
  ∧ trace (env w4) = trace (env w) ++ [Sigterm 0%nat].
Proof.
  intros w w1 w2 w3 w4.
  destruct (stop_ends_the_loop w 0%nat DEFAULT_SETTINGS "a" 0%nat
              (mkPopen (ffmpeg_argv "videos/a" (PStr "rtmp://example.com/live")
                          (PStr "your_stream_key") (PInt 2500) "1920x1080"
                          (PInt 30))
                       plays_well None))
    as (_ & (Hth & Hm & _) & Hterm & _);
    [reflexivity|reflexivity|reflexivity|reflexivity|reflexivity|reflexivity
    |discriminate|].
  destruct Hterm as [_ Htr]; [reflexivity|].
  split_and!; [exact Hth| | |exact Htr].
  - change (queue (mgr w4)) with (queue (mgr (run [Step 0%nat; Step 0%nat] w3))).
    fold w1 w2 w3 in Hm. unfold w4. by rewrite Hm.
  - unfold w4. fold w1 w2 w3 in Hm. by rewrite Hm.
Defined.

(** X12: if [terminate()] itself raises, a stop request still answers with
    success: the error is printed, the process handle is dropped and the
    session is marked inactive, but no further signal is sent and the
    process goes on running. *)
Theorem stop_orphans_when_terminate_fails (w : World) (p : pid) (pr : Popen) :
  is_active (mgr w) = true ->
  process (mgr w) = Some p ->
  procs (env w) !! p = Some pr ->
  returncode pr = None ->
  terminate_fails (behaviour pr) = true ->
  exists w',
    Api.stop_stream w = (Ok "Stream stopped successfully", w')
    ∧ process (mgr w') = None
    ∧ is_active (mgr w') = false
    ∧ procs (env w') = procs (env w)
    ∧ trace (env w')
      = trace (env w)
        ++ [Printed "Error stopping process: [Errno 1] Operation not permitted"].
Proof.
  intros Ha Hp Hpr Hrc Ht.
  enough (wp Api.stop_stream w (fun r w' =>
            r = Ok "Stream stopped successfully"
            ∧ process (mgr w') = None
            ∧ is_active (mgr w') = false
            ∧ procs (env w') = procs (env w)
            ∧ trace (env w')
              = trace (env w)
                ++ [Printed "Error stopping process: [Errno 1] Operation not permitted"]))
    as H.
  { apply wp_inv in H as (r & w' & Hrun & -> & H). by exists w'. }
  open_world w. cbn in Ha, Hp, Hpr. subst. unfold_all.
  wp_auto; wcbv; clean_bools; simplify_eq; try congruence; try done.
  all: match goal with H : ¬ is_Some (Some _) |- _ => destruct H; by eexists end.
Qed.

Lemma stop_orphans_when_terminate_fails_witness :
  let w := run [Start; Step 0%nat]
               (sample_world ["videos/a"]
                  (fun _ => Some (mkBehaviour 0 "" true false false)) ["a"]) in
  let w' := exec Stop w in
  fst (Api.stop_stream w) = Ok "Stream stopped successfully"
  ∧ is_active (mgr w') = false
  ∧ running_procs w' = 1%nat.
Proof.
  intros w w'.
  destruct (stop_orphans_when_terminate_fails w 0%nat
              (mkPopen (ffmpeg_argv "videos/a" (PStr "rtmp://example.com/live")
                          (PStr "your_stream_key") (PInt 2500) "1920x1080"
                          (PInt 30))
                       (mkBehaviour 0 "" true false false) None))
    as (w1 & Hrun & _ & Ha & _);
    [reflexivity|reflexivity|reflexivity|reflexivity|reflexivity|].
  split_and!; [by rewrite Hrun| |reflexivity].
  assert (w' = w1) as ->
    by (subst w'; cbn [exec]; unfold state_after; by rewrite Hrun).
  exact Ha.
Defined.

(** X13: a skip request is refused with status 400 when the session is not
    marked active; when it is marked active but no process is held (the
    loop stands between two videos), the request reports success and does
    nothing at all. *)
Theorem skip_without_process (w : World) :
  (is_active (mgr w) = false ->
   Api.skip_video w = (Raise (HTTPException 400 "No active stream"), w))
  ∧ (is_active (mgr w) = true -> process (mgr w) = None ->
     Api.skip_video w = (Ok "Skipped to next video", w)).
Proof.
  split.
  - intros Ha. apply wp_eq. unfold Api.skip_video.
    repeat first [wp_step | rewrite Ha]. reflexivity.
  - intros Ha Hp. apply wp_eq. unfold Api.skip_video, SM.skip_current.
    repeat first [wp_step | rewrite Ha | rewrite Hp | progress cbn [negb]].
    rewrite bool_decide_eq_false_2 by (by intros [? ?]).
    repeat wp_step. reflexivity.
Qed.

Lemma skip_without_process_witness :
  (let w := sample_world ["videos/a"] (fun _ => Some plays_well) ["a"] in
   Api.skip_video w = (Raise (HTTPException 400 "No active stream"), w))
  ∧ (let w := run [Start; Step 0%nat; ProcessExits 0%nat; Step 0%nat]
                  (sample_world ["videos/a"; "videos/b"]
                                (fun _ => Some plays_well) ["a"; "b"]) in
     Api.skip_video w = (Ok "Skipped to next video", w)).
Proof.
  split.
  - intros w. apply (proj1 (skip_without_process w)). reflexivity.
  - intros w. apply (proj2 (skip_without_process w)); reflexivity.
Defined.

(** ** Settings *)



(** X15: when settings.json is absent or unreadable and the disk can be
    written, reading the settings returns the defaults and writes them to
    the file, so that the next read finds them there. *)
Theorem first_load_writes_defaults (w : World) :
  (forall s, settings_file (env w) ≠ Some (Some s)) ->
  disk_writable (env w) = true ->
  exists w',
    get_settings w = (Ok DEFAULT_SETTINGS, w')
    ∧ settings_file (env w') = Some (Some DEFAULT_SETTINGS)
    ∧ get_settings w' = (Ok DEFAULT_SETTINGS, w')
    ∧ mgr w' = mgr w.
Proof.
  intros Hs Hd. open_world w. cbn in Hs, Hd. subst e_disk.
  destruct e_sfile as [[s|]|]; [by destruct (Hs s)| |];
    eexists; split_and!; reflexivity.
Qed.

Lemma first_load_writes_defaults_witness :
  let w := upd_env (set_settings_file None)
                   (sample_world [] (fun _ => None) []) in
  fst (get_settings w) = Ok DEFAULT_SETTINGS
  ∧ settings_file (env (state_after get_settings w)) = Some (Some DEFAULT_SETTINGS).
Proof.
  intros w.
  destruct (first_load_writes_defaults w) as (w' & Hrun & Hf & _);
    [discriminate|reflexivity|].
  unfold state_after. rewrite Hrun. split; [reflexivity|exact Hf].
Defined.

(** X16: when settings.json is absent or unreadable and the disk cannot be
    written, a start request on an idle session with a non-empty queue fails
    with status 500 (the defaults cannot be saved) and starts nothing: no
    thread is created and the manager is as it was. *)
Theorem start_needs_settings (w : World) :
  (forall s, settings_file (env w) ≠ Some (Some s)) ->
  disk_writable (env w) = false ->
  is_active (mgr w) = false ->
  queue (mgr w) ≠ [] ->
  exists w',
    Api.start_stream w
    = (Raise (HTTPException 500
         "Failed to save settings: [Errno 13] Permission denied: 'settings.json'"),
       w')
    ∧ threads w' = threads w
    ∧ mgr w' = mgr w.
Proof.
  intros Hs Hd Ha Hq. open_world w. cbn in Hs, Hd, Ha, Hq. subst.
  destruct h_queue as [|v q]; [done|].
  destruct e_sfile as [[s|]|]; [by destruct (Hs s)| |];
    eexists; split_and!; reflexivity.
Qed.

Lemma start_needs_settings_witness :
  let w := upd_env (fun e => mkEnv (files e) (queue_file e) None false
                               (clock e) (ffmpeg e) (procs e) (trace e))
             (sample_world ["videos/a"] (fun _ => Some plays_well) ["a"]) in
  threads (exec Start w) = [].
Proof.
  intros w.
  destruct (start_needs_settings w) as (w' & Hrun & Ht & _);
    [discriminate|reflexivity|reflexivity|discriminate|].
  cbn [exec]. unfold state_after. rewrite Hrun. exact Ht.
Defined.

(** ** Deleting a video *)

(** X17: [DELETE /video/{id}] changes nothing when it refuses: with status
    404 when the file is not there, with status 400 when the video is the
    one being streamed. *)
Theorem delete_refused (v : string) (w : World) :
  (path_join VIDEOS_DIR v ∉ files (env w) ->
   delete_video v w = (Raise (HTTPException 404 "Video not found"), w))
  ∧ (path_join VIDEOS_DIR v ∈ files (env w) ->
     current_video_id (mgr w) = Some v ->
     delete_video v w
     = (Raise (HTTPException 400
                 "Cannot delete video that is currently streaming"), w)).
Proof.
  split.
  - intros Hf. apply wp_eq. unfold delete_video, path_exists.
    repeat wp_step. rewrite bool_decide_eq_false_2 by done. cbn [negb].
    wp_step. reflexivity.
  - intros Hf Hc. apply wp_eq. unfold delete_video, path_exists.
    repeat wp_step. rewrite bool_decide_eq_true_2 by done. cbn [negb].
    wp_step. eapply wp_run; [apply get_status_run|]. cbv beta iota.
    cbn [StreamStatus.currentVideoId]. rewrite Hc.
    rewrite bool_decide_eq_true_2 by done. wp_step. reflexivity.
Qed.

Lemma delete_refused_witness :
  let w := run [Start; Step 0%nat]
               (sample_world ["videos/a"; "videos/b"]
                             (fun _ => Some plays_well) ["a"; "b"]) in
  delete_video "zzz" w = (Raise (HTTPException 404 "Video not found"), w)
  ∧ delete_video "a" w
    = (Raise (HTTPException 400
                "Cannot delete video that is currently streaming"), w).
Proof.
  intros w. split.
  - apply (proj1 (delete_refused "zzz" w)).
    apply (proj1 (bool_decide_eq_false
                    (path_join VIDEOS_DIR "zzz" ∈ files (env w)))).
    reflexivity.
  - apply (proj2 (delete_refused "a" w)); [|reflexivity].
    apply (proj1 (bool_decide_eq_true
                    (path_join VIDEOS_DIR "a" ∈ files (env w)))).
    reflexivity.
Defined.



(** ** An unattended broadcast *)






(** ** The session flag and the loop threads *)

Lemma request_keeps_threads {A} (prog : M A) w :
  wp prog w (fun _ w' =>
    (is_active (mgr w') = true -> is_active (mgr w) = true)
    ∧ exists more, threads w' = threads w ++ more) ->
  (is_active (mgr w) = true ->
   exists tid th, threads w !! tid = Some th ∧ th_pc th ≠ Exited) ->
  is_active (mgr (state_after prog w)) = true ->
  exists tid th, threads (state_after prog w) !! tid = Some th ∧ th_pc th ≠ Exited.
Proof.
  unfold wp, state_after. intros (Ha & more & Ht) Hinv Ha'.
  destruct (Hinv (Ha Ha')) as (tid & th & Hth & Hpc).
  exists tid, th. split; [|done]. rewrite Ht. by apply lookup_app_l_Some.
Qed.

Lemma perform_keeps_live c w :
  (is_active (mgr w) = true ->
   exists tid th, threads w !! tid = Some th ∧ th_pc th ≠ Exited) ->
  is_active (mgr (perform c w)) = true ->
  exists tid th, threads (perform c w) !! tid = Some th ∧ th_pc th ≠ Exited.
Proof.
  intros Hinv.
  assert (Hstep : forall tid,
            is_active (mgr (thread_step tid w)) = true ->
            exists tid0 th,
              threads (thread_step tid w) !! tid0 = Some th ∧ th_pc th ≠ Exited).
  { intros tid.
    destruct (thread_step_cases tid w)
      as [->|(th & pc' & w1 & Hth & Hrun & ->)]; [done|].
    cbn [mgr threads set_threads].
    pose proof (loop_step_effect (th_settings th) (th_pc th) w) as Heff.
    unfold wp in Heff. rewrite Hrun in Heff. cbn [fst snd] in Heff.
    destruct Heff as (Ht & _). rewrite Ht.
    assert (Hlt : (tid < length (threads w))%nat) by by eapply lookup_lt_Some.
    intros Ha'. destruct (decide (pc' = Exited)) as [->|Hlive].
    + destruct (decide (th_pc th = Exited)) as [Hdead|Hwas].
      * assert (w1 = w) as ->.
        { rewrite Hdead in Hrun. cbn [SM.loop_step] in Hrun. unfold ret in Hrun.
          by simplify_eq. }
        destruct (Hinv Ha') as (tid0 & th0 & Hth0 & Hpc0).
        exists tid0, th0. split; [|done].
        rewrite list_lookup_insert_ne; [done|].
        intros <-. rewrite Hth in Hth0. by simplify_eq.
      * pose proof (loop_step_exit (th_settings th) (th_pc th) w Hwas) as Hex.
        unfold wp in Hex. rewrite Hrun in Hex. cbn [fst snd] in Hex.
        destruct (Hex eq_refl) as (Hf & _). congruence.
    + eexists tid, _. split; [by apply list_lookup_insert_eq|done]. }
  destruct c as [[| | |v|v|tid|p|dt|tid']|v| |s]; cbn [perform exec].
  all: try (apply request_keeps_threads; [|done]; clear Hinv Hstep;
            open_world w; unfold_all; wp_auto; unfold set_files; wcbv;
            (split; [intros; congruence|]);
            first [by exists []; rewrite app_nil_r | by eexists]).
  - apply Hstep.
  - unfold process_exits. destruct (procs (env w) !! p) as [pr|]; [|done].
    by destruct (returncode pr).
  - destruct (thread_enter_cases tid' w)
      as [->|[(th & Hth & _ & _ & ->)|(th & _ & _ & _ & ->)]];
      [done| |apply Hstep].
    intros _. eexists tid', _. cbn [threads set_threads].
    split; [apply list_lookup_insert_eq; by eapply lookup_lt_Some|done].
Qed.

(** X20: whenever the session is marked active (so that [get_status] says
    "streaming"), at least one loop thread is still running; the flag is
    never left set by a loop that has ended.  This holds in every state
    the system reaches from its construction. *)
Theorem streaming_implies_live_loop (e : Env) (cs : list call) :
  let w := history cs (boot e) in
  is_active (mgr w) = true -> (0 < live_loops w)%nat.
Proof.
  intros w Ha.
  assert (exists tid th, threads w !! tid = Some th ∧ th_pc th ≠ Exited)
    as (tid & th & Hth & Hpc).
  { revert Ha. subst w. induction cs as [|c cs IH] using rev_ind.
    - change (history [] (boot e)) with (boot e).
      intros Ha. exfalso. revert Ha. unfold boot.
      by destruct e as [fs [[q|]|] sf d c ff ps tr].
    - rewrite history_snoc. by apply perform_keeps_live. }
  unfold live_loops.
  assert (th ∈ filter (fun th => th_pc th ≠ Exited) (threads w)) as Hin.
  { apply list_elem_of_filter. split; [done|]. by eapply list_elem_of_lookup_2. }
  destruct (filter _ (threads w)); [by apply elem_of_nil in Hin|cbn; lia].
Qed.

Lemma streaming_implies_live_loop_witness :
  let w := history [Act (Enqueue "a"); Act Start; Act (Step 0%nat)]
             (boot (sample_env ["videos/a"] (fun _ => Some plays_well))) in
  is_active (mgr w) = true ∧ (0 < live_loops w)%nat.
Proof.
  intros w. split; [reflexivity|].
  apply (streaming_implies_live_loop
           (sample_env ["videos/a"] (fun _ => Some plays_well))
           [Act (Enqueue "a"); Act Start; Act (Step 0%nat)]).
  reflexivity.
Defined.

(** ** What the loop starts *)

Lemma wp_popen cmd w (Q : result pid -> World -> Prop) :
  (forall e, Q (Raise e) w) ->
  (forall argv beh,
     mapM SM.as_str cmd
     = Some argv ->
     Q (Ok (length (procs (env w))))
       (upd_env (fun e => set_trace (trace e ++ [Spawned (length (procs e)) argv])
                            (set_procs (procs e ++ [mkPopen argv beh None]) e)) w)) ->
  wp (SM.popen cmd) w Q.
Proof.
  intros Hraise Hok. unfold SM.popen.
  destruct (mapM _ cmd) as [argv|] eqn:Hm; [|apply wp_raise, Hraise].
  repeat wp_step. destruct (ffmpeg (env w) argv) as [beh|]; repeat wp_step.
  - destruct w as [m e t]. by apply Hok.
  - apply Hraise.
Qed.

Lemma ffmpeg_cmd_input video_path u k b d r f argv :
  mapM SM.as_str (SM.ffmpeg_cmd video_path u k b d r f) = Some argv ->
  argv !! 3%nat = Some video_path.
Proof.
  intros Hm. apply mapM_Some in Hm.
  assert (SM.ffmpeg_cmd video_path u k b d r f !! 3%nat = Some (PStr video_path))
    as Hl by reflexivity.
  destruct (Forall2_lookup_l _ _ _ _ _ Hm Hl) as (y & Hy & Hf).
  cbn in Hf. by simplify_eq.
Qed.

(** X21: a step of the loop thread starts at most one process, and only for
    the entry at the head of the queue and only if the file of that entry is
    on disk at that moment: the process table afterwards is the one before,
    or that extended by one running process whose input file is the path of
    the head entry, a file that exists. *)
Theorem loop_starts_only_files_on_disk
        (settings : Settings) (at_pc : pc) (w : World) :
  let w' := state_after (SM.loop_step settings at_pc) w in
  procs (env w') = procs (env w)
  ∨ exists pr v,
      procs (env w') = procs (env w) ++ [pr]
      ∧ returncode pr = None
      ∧ head (queue (mgr w)) = Some v
      ∧ input_file pr = Some (path_join VIDEOS_DIR v)
      ∧ path_join VIDEOS_DIR v ∈ files (env w).
Proof.
  change (wp (SM.loop_step settings at_pc) w (fun _ w' =>
    procs (env w') = procs (env w)
    ∨ exists pr v,
        procs (env w') = procs (env w) ++ [pr]
        ∧ returncode pr = None
        ∧ head (queue (mgr w)) = Some v
        ∧ input_file pr = Some (path_join VIDEOS_DIR v)
        ∧ path_join VIDEOS_DIR v ∈ files (env w))).
  open_world w.
  destruct at_pc as [| |v p| |];
    unfold SM.loop_step, SM.loop_from_head, SM.loop_body, SM.loop_from_wait,
      SM.loop_from_sleep,
      SM.loop_cleanup, SM.loop_except, SM.get_next_video, SM._save_queue,
      SM._stream_video_begin, SM._stream_video_resume, SM.stream_video_handlers,
      SM.after_wait, SM.self_process, SM.proc, SM.has_exited, SM.dict_get,
      SM.py_mul2, path_exists.
  all: repeat first [wp_step | wp_branch
                     | apply wp_popen; [intros ?|intros argv beh Hm] ].
  all: wcbv; clean_bools; try (by left).
  all: right; eexists _, _; split_and!; try done.
  all: unfold input_file; cbn [args]; by eapply ffmpeg_cmd_input.
Qed.

(** ** A start request right after a stop request *)

(** The loop test, for a thread that stands at it. *)
Lemma thread_enter_at tid w settings :
  threads w !! tid = Some (mkThread settings LoopHead) ->
  thread_enter tid w
  = if should_stop (mgr w)
    then set_threads (<[tid := mkThread settings Exited]> (threads w))
           (upd_mgr (set_start_time None)
              (upd_mgr (set_current_video_id None)
                 (upd_mgr (set_is_active false) w)))
    else set_threads (<[tid := mkThread settings Entered]> (threads w)) w.
Proof.
  intros Hth. unfold thread_enter. rewrite Hth.
  cbn [SM.loop_enter th_pc th_settings].
  unfold SM.loop_test, bind, get.
  destruct (should_stop (mgr w)); reflexivity.
Qed.

(** X22: a start request that is served after a stop request, but before the
    stopped loop thread has evaluated its loop test again, revives that
    thread.  The thread stands at the loop test with [should_stop] set: left
    alone it would leave the loop at once.  [start_stream] clears
    [should_stop] (line 125) and creates a second thread; the old thread
    then passes its test, so that two loops consume the same queue. *)
Theorem start_revives_stopped_loop
        (w : World) (tid : nat) (settings : Settings) :
  threads w !! tid = Some (mkThread settings LoopHead) ->
  should_stop (mgr w) = true ->
  is_active (mgr w) = false ->
  queue (mgr w) ≠ [] ->
  settings_available (env w) ->
  let w1 := exec Start w in
  let w2 := exec (Enter tid) w1 in
  threads (exec (Enter tid) w) !! tid = Some (mkThread settings Exited)
  ∧ fst (Api.start_stream w) = Ok "Stream started successfully"
  ∧ should_stop (mgr w1) = false
  ∧ (exists settings', threads w1 = threads w ++ [mkThread settings' LoopHead])
  ∧ threads w2 !! tid = Some (mkThread settings Entered)
  ∧ (exists settings',
       threads w2 !! length (threads w) = Some (mkThread settings' LoopHead))
  ∧ queue (mgr w2) = queue (mgr w).
Proof.
  intros Hth Hs Ha Hq Hav w1 w2. subst w2 w1. cbn [exec]. unfold state_after.
  assert (Hlt : (tid < length (threads w))%nat) by by eapply lookup_lt_Some.
  split.
  { rewrite (thread_enter_at tid w settings Hth), Hs. cbn [threads set_threads].
    wsimpl. by apply list_lookup_insert_eq. }
  enough (exists settings' w1,
            Api.start_stream w = (Ok "Stream started successfully", w1)
            ∧ threads w1 = threads w ++ [mkThread settings' LoopHead]
            ∧ mgr w1 = set_stream_thread (Some (length (threads w)))
                         (set_should_stop false (mgr w)))
    as (settings' & w1 & -> & Ht1 & Hm1).
  { cbn [fst snd].
    assert (Hth1 : threads w1 !! tid = Some (mkThread settings LoopHead)).
    { rewrite Ht1. by apply lookup_app_l_Some. }
    rewrite (thread_enter_at tid w1 settings Hth1).
    assert (Hs1 : should_stop (mgr w1) = false) by by rewrite Hm1.
    rewrite Hs1. cbn [threads mgr set_threads].
    split_and!; [done|done|by exists settings'| | |by rewrite Hm1].
    - apply list_lookup_insert_eq. rewrite Ht1, length_app. cbn. lia.
    - exists settings'. rewrite list_lookup_insert_ne by lia.
      rewrite Ht1. by apply list_lookup_middle. }
  enough (wp Api.start_stream w (fun r w1 =>
            r = Ok "Stream started successfully"
            ∧ (exists settings', threads w1 = threads w ++ [mkThread settings' LoopHead])
            ∧ mgr w1 = set_stream_thread (Some (length (threads w)))
                         (set_should_stop false (mgr w)))) as H.
  { apply wp_inv in H as (r & w1 & Hrun & -> & [s' Ht] & Hm).
    by exists s', w1. }
  clear - Ha Hq Hav.
  open_world w. cbn in Ha, Hq. subst h_active.
  destruct h_queue as [|v q]; [done|].
  unfold_all.
  destruct Hav as [[s Hsf]|Hd]; cbn in *; subst.
  - wp_auto; wcbv; split_and!; try done; by eexists.
  - wp_auto; wcbv; split_and!; try done; by eexists.
Qed.

Lemma start_revives_stopped_loop_witness :
  let w0 := run [Start; Step 0%nat]
                (sample_world ["videos/a"; "videos/b"; "videos/c"]
                              (fun _ => Some plays_well) ["a"; "b"; "c"]) in
  let w := state_after (Api.stop_stream_end 0%nat)
             (exec (Step 0%nat) (state_after Api.stop_stream_begin w0)) in
  let w4 := run [Start; Enter 0%nat; Step 0%nat; Step 1%nat] w in
  (th_pc <$> threads w = [LoopHead] ∧ should_stop (mgr w) = true)
  ∧ should_stop (mgr (exec Start w)) = false
  ∧ th_pc <$> threads w4 = [Waiting "b" 1%nat; Waiting "c" 2%nat]
  ∧ running_procs w4 = 2%nat.
Proof.
  intros w0 w w4.
  destruct (start_revives_stopped_loop w 0%nat DEFAULT_SETTINGS)
    as (_ & _ & Hs & _);
    [vm_compute; reflexivity|vm_compute; reflexivity|vm_compute; reflexivity
    |vm_compute; discriminate|right; vm_compute; reflexivity|].
  split_and!; [vm_compute; reflexivity|vm_compute; reflexivity|exact Hs
              |vm_compute; reflexivity|vm_compute; reflexivity].
Defined.
